(** * simubrowser: the tab manager of [src/components/Browser.tsx]

    A shallow embedding of the state kept by the [Browser] component
    (the record [BrowserState] of [src/types.ts]) and of the handlers that
    update it, together with the address-bar submit handler of
    [src/components/AddressBar.tsx].

    Conventions.
    - A JavaScript string is a [string]; a character stands for one code
      unit below 256.
    - A JavaScript number used as an index is a [Z].
    - [undefined] read out of an array is [None]; this is why the [url]
      field, which [handleBack] and [handleForward] fill from
      [history[...]], is an [option string].
    - React state updates are applied in the order the handlers run, and
      each handler sees the state left by the previous one: a handler is
      a function from the state before to the state after.
    - Reading a property of [activeTab] when no tab carries [activeTabId]
      ([find] returned [undefined]) throws a [TypeError]; the handler's
      result then records the state it left behind. The render of
      [Browser] reads [activeTab.url] as well, so the component hands
      out handlers only in states where [activeTabId] is the id of a
      tab; the [TypeError] outcome keeps the handlers total on the
      other records. *)

From Stdlib Require Import ZArith List String Ascii Bool Lia.
From Stdlib Require Import Permutation Sorted.
Import ListNotations.

Local Open Scope Z_scope.

(** ** JavaScript built-ins used by the handlers *)

Module Js.

(** [arr.length] *)
Definition length {A} (arr : list A) : Z := Z.of_nat (List.length arr).

(** [arr[i]]: [undefined] outside [0 .. length-1]. *)
Definition index {A} (arr : list A) (i : Z) : option A :=
  if i <? 0 then None else nth_error arr (Z.to_nat i).

(** [arr.slice(0, e)]: a negative [e] counts from the end, and the
    bound is clamped to [0 .. length]. *)
Definition slice0 {A} (arr : list A) (e : Z) : list A :=
  let len := length arr in
  let k := if e <? 0 then Z.max (len + e) 0 else Z.min e len in
  firstn (Z.to_nat k) arr.

(** [s.startsWith(p)] *)
Definition startsWith (s p : string) : bool := String.prefix p s.

(** White space and line terminators among the code units below 256:
    TAB, LF, VT, FF, CR, SPACE and NBSP. *)
Definition isWhiteSpace (c : ascii) : bool :=
  let n := N_of_ascii c in
  (((9 <=? n) && (n <=? 13)) || (n =? 32) || (n =? 160))%N.

Fixpoint trimStart (s : string) : string :=
  match s with
  | EmptyString => EmptyString
  | String c rest => if isWhiteSpace c then trimStart rest else s
  end.

Fixpoint trimEnd (s : string) : string :=
  match s with
  | EmptyString => EmptyString
  | String c rest =>
      match trimEnd rest with
      | EmptyString => if isWhiteSpace c then EmptyString
                       else String c EmptyString
      | kept => String c kept
      end
  end.

(** [s.trim()] *)
Definition trim (s : string) : string := trimEnd (trimStart s).

End Js.

(** ** Data model ([Browser.tsx], as the component builds its tabs) *)

Record Tab : Type := mkTab {
  id : string;
  url : option string;
  title : string;
  history : list string;
  currentHistoryIndex : Z;
  error : option string
}.

Record BrowserState : Type := mkBrowserState {
  tabs : list Tab;
  activeTabId : string
}.

(** [Partial<Tab>], restricted to the fields some handler passes. A field
    that is present replaces the tab's one, also when its value is
    [undefined]. *)
Record TabUpdates : Type := mkUpdates {
  set_url : option (option string);
  set_title : option string;
  set_history : option (list string);
  set_currentHistoryIndex : option Z;
  set_error : option (option string)
}.

Definition orKeep {A} (new : option A) (old : A) : A :=
  match new with Some v => v | None => old end.

(** [{ ...tab, ...updates }] *)
Definition spread (tab : Tab) (updates : TabUpdates) : Tab :=
  {| id := id tab;
     url := orKeep (set_url updates) (url tab);
     title := orKeep (set_title updates) (title tab);
     history := orKeep (set_history updates) (history tab);
     currentHistoryIndex :=
       orKeep (set_currentHistoryIndex updates) (currentHistoryIndex tab);
     error := orKeep (set_error updates) (error tab) |}.

(** The outcome of a handler: it ran to its end, or it threw a
    [TypeError]; either way it leaves a state. *)
Inductive result : Type :=
| Ok (s : BrowserState)
| TypeError (s : BrowserState).

Definition state_of (r : result) : BrowserState :=
  match r with Ok s => s | TypeError s => s end.

Definition threw (r : result) : bool :=
  match r with Ok _ => false | TypeError _ => true end.

(** [createNewTab], given the string [uuidv4()] returns. *)
Definition createNewTab (uuid : string) : Tab :=
  {| id := uuid;
     url := Some ""%string;
     title := "New Tab"%string;
     history := [""%string];
     currentHistoryIndex := 0;
     error := None |}.

(** The state [Browser] starts from. *)
Definition initialState (uuid : string) : BrowserState :=
  let initialTab := createNewTab uuid in
  {| tabs := [initialTab]; activeTabId := id initialTab |}.

(** [browserState.tabs.find((tab) => tab.id === browserState.activeTabId)] *)
Definition activeTab (s : BrowserState) : option Tab :=
  find (fun tab => String.eqb (id tab) (activeTabId s)) (tabs s).

Definition updateActiveTab (updates : TabUpdates) (prev : BrowserState)
  : BrowserState :=
  {| tabs := map (fun tab =>
                    if String.eqb (id tab) (activeTabId prev)
                    then spread tab updates else tab)
                 (tabs prev);
     activeTabId := activeTabId prev |}.

Definition handleNavigate (url : string) (s : BrowserState) : result :=
  match activeTab s with
  | None => TypeError s
  | Some activeTab =>
      let newHistory :=
        Js.slice0 (history activeTab) (currentHistoryIndex activeTab + 1)
          ++ [url] in
      Ok (updateActiveTab
            {| set_url := Some (Some url);
               set_title := None;
               set_history := Some newHistory;
               set_currentHistoryIndex := Some (Js.length newHistory - 1);
               set_error := Some None |} s)
  end.

Definition handleNewTab (uuid : string) (prev : BrowserState) : BrowserState :=
  let newTab := createNewTab uuid in
  {| tabs := tabs prev ++ [newTab]; activeTabId := id newTab |}.

(** [uuid] is what [uuidv4()] returns if the handler gets to call it. *)
Definition handleCloseTab (uuid : string) (tabId : string)
  (prev : BrowserState) : BrowserState :=
  let newTabs :=
    filter (fun tab => negb (String.eqb (id tab) tabId)) (tabs prev) in
  match newTabs with
  | [] =>
      let newTab := createNewTab uuid in
      {| tabs := [newTab]; activeTabId := id newTab |}
  | first :: _ =>
      {| tabs := newTabs;
         activeTabId :=
           if String.eqb (activeTabId prev) tabId
           then id first else activeTabId prev |}
  end.

(** [onTabSelect], as passed to [TabBar] and to [TabCardView]. *)
Definition onTabSelect (tabId : string) (prev : BrowserState) : BrowserState :=
  {| tabs := tabs prev; activeTabId := tabId |}.

Definition handleBack (s : BrowserState) : result :=
  match activeTab s with
  | None => TypeError s
  | Some activeTab =>
      if currentHistoryIndex activeTab >? 0 then
        Ok (updateActiveTab
              {| set_url :=
                   Some (Js.index (history activeTab)
                                  (currentHistoryIndex activeTab - 1));
                 set_title := None;
                 set_history := None;
                 set_currentHistoryIndex :=
                   Some (currentHistoryIndex activeTab - 1);
                 set_error := Some None |} s)
      else Ok s
  end.

Definition handleForward (s : BrowserState) : result :=
  match activeTab s with
  | None => TypeError s
  | Some activeTab =>
      if currentHistoryIndex activeTab <? Js.length (history activeTab) - 1
      then
        Ok (updateActiveTab
              {| set_url :=
                   Some (Js.index (history activeTab)
                                  (currentHistoryIndex activeTab + 1));
                 set_title := None;
                 set_history := None;
                 set_currentHistoryIndex :=
                   Some (currentHistoryIndex activeTab + 1);
                 set_error := Some None |} s)
      else Ok s
  end.

(** The state part of [handleRefresh]: the error is cleared first, then
    [activeTab.id] is read to find the frame to reload. Reloading the
    frame does not touch the state. *)
Definition handleRefresh (s : BrowserState) : result :=
  let cleared :=
    updateActiveTab
      {| set_url := None; set_title := None; set_history := None;
         set_currentHistoryIndex := None; set_error := Some None |} s in
  match activeTab s with
  | None => TypeError cleared
  | Some _ => Ok cleared
  end.

Definition iframeErrorMessage : string :=
  "This website cannot be displayed in an iframe due to security restrictions.".

Definition handleIframeError (s : BrowserState) : result :=
  Ok (updateActiveTab
        {| set_url := None;
           set_title := Some "Cannot Display Content"%string;
           set_history := None;
           set_currentHistoryIndex := None;
           set_error := Some (Some iframeErrorMessage) |} s).

(** The url that [handleKeyPress] of [AddressBar] hands to [onNavigate]:
    the text of the field, trimmed, with "https://" in front unless it
    starts with "http://" or "https://". *)
Definition normalizeUrl (inputValue : string) : string :=
  let url := Js.trim inputValue in
  if negb (Js.startsWith url "http://") && negb (Js.startsWith url "https://")
  then ("https://" ++ url)%string
  else url.

(** [handleKeyPress]: [key] is [e.key], [inputValue] the text of the
    field and [onNavigate] the callback of the props. *)
Definition handleKeyPress (onNavigate : string -> BrowserState -> result)
  (key inputValue : string) (s : BrowserState) : result :=
  if String.eqb key "Enter" then onNavigate (normalizeUrl inputValue) s
  else Ok s.

Section Controller.

(** [new URL(url).hostname]; [None] when the constructor throws. *)
Variable hostname : string -> option string.

(** [getDomainFromUrl] of [types.ts]; [!url] holds of [undefined] and
    of the empty string. *)
Definition getDomainFromUrl (url : option string) : string :=
  match url with
  | None => "New Tab"%string
  | Some u =>
      if String.eqb u "" || String.eqb u "about:blank"
         || String.eqb u "browser://newtab"
      then "New Tab"%string
      else match hostname u with
           | Some host => host
           | None => u
           end
  end.

(** [handleIframeLoad]: [docTitle] is [iframe.contentDocument?.title],
    [None] when the document cannot be reached. The [catch] branch
    computes the same title as the right operand of [||]. *)
Definition handleIframeLoad (docTitle : option string) (s : BrowserState)
  : result :=
  let setTitle t :=
    updateActiveTab
      {| set_url := None; set_title := Some t; set_history := None;
         set_currentHistoryIndex := None; set_error := None |} s in
  let truthy :=
    match docTitle with
    | Some t => negb (String.eqb t "")
    | None => false
    end in
  match docTitle, truthy with
  | Some t, true => Ok (setTitle t)
  | _, _ =>
      match activeTab s with
      | None => TypeError s
      | Some activeTab => Ok (setTitle (getDomainFromUrl (url activeTab)))
      end
  end.

(** ** The command surface *)

(** Commands that go through [updateActiveTab]. *)
Inductive TabCommand : Type :=
| Navigate (inputValue : string)      (* Enter in the address bar *)
| OnNavigate (url : string)           (* [handleNavigate], as wired to
                                         bookmarks and shortcut tiles *)
| Back
| Forward
| Refresh
| ReportDisplayError                  (* the frame's [onError] *)
| ReportLoadSuccess (docTitle : option string).  (* the frame's [onLoad] *)

Inductive Command : Type :=
| OnTab (c : TabCommand)
| OpenTab (uuid : string)
| CloseTab (uuid : string) (tabId : string)
| SelectTab (tabId : string).

Definition stepTab (c : TabCommand) (s : BrowserState) : result :=
  match c with
  | Navigate inputValue => handleKeyPress handleNavigate "Enter" inputValue s
  | OnNavigate url => handleNavigate url s
  | Back => handleBack s
  | Forward => handleForward s
  | Refresh => handleRefresh s
  | ReportDisplayError => handleIframeError s
  | ReportLoadSuccess docTitle => handleIframeLoad docTitle s
  end.

Definition step (c : Command) (s : BrowserState) : result :=
  match c with
  | OnTab c => stepTab c s
  | OpenTab uuid => Ok (handleNewTab uuid s)
  | CloseTab uuid tabId => Ok (handleCloseTab uuid tabId s)
  | SelectTab tabId => Ok (onTabSelect tabId s)
  end.

(** The state after a sequence of commands, oldest first. *)
Definition run (cs : list Command) (s : BrowserState) : BrowserState :=
  fold_left (fun st c => state_of (step c st)) cs s.

(** States the component can be in. *)
Inductive Reachable : BrowserState -> Prop :=
| reach_init uuid : Reachable (initialState uuid)
| reach_step c s : Reachable s -> Reachable (state_of (step c s)).

End Controller.

(** ** The invariant of the data model *)

Definition ids (s : BrowserState) : list string := map id (tabs s).

Definition cursor_in_range (t : Tab) : Prop :=
  0 <= currentHistoryIndex t < Js.length (history t).

Record Invariant (s : BrowserState) : Prop := mkInvariant {
  tabs_nonempty : tabs s <> [];
  active_resolves : In (activeTabId s) (ids s);
  ids_unique : NoDup (ids s);
  cursors_in_range : Forall cursor_in_range (tabs s)
}.

(** What a command needs from the state it runs in for the invariant to
    survive: a selected id is the id of a tab, and the id generated for
    an opened tab is not yet in use. *)
Definition admissible (c : Command) (s : BrowserState) : Prop :=
  match c with
  | SelectTab tabId => In tabId (ids s)
  | OpenTab uuid => ~ In uuid (ids s)
  | OnTab _ | CloseTab _ _ => True
  end.

(** The normalisation of navigate as the specification words it: a url
    that lacks a recognized scheme prefix gets the default secure one in
    front, and nothing else happens to it. To be compared with
    [normalizeUrl]. *)
Definition hasScheme (url : string) : bool :=
  Js.startsWith url "http://" || Js.startsWith url "https://".

Definition spec_normalizeUrl (url : string) : string :=
  if hasScheme url then url else ("https://" ++ url)%string.

(** The tab commands whose update carries [error: null], for an active
    tab [t]: back and forward carry it when they move the cursor. *)
Definition clearsLoadError (c : TabCommand) (t : Tab) : bool :=
  match c with
  | Navigate _ | OnNavigate _ | Refresh => true
  | Back => currentHistoryIndex t >? 0
  | Forward => currentHistoryIndex t <? Js.length (history t) - 1
  | ReportDisplayError | ReportLoadSuccess _ => false
  end.

(** ** What [Browser] renders for a tab *)

(** The props [canGoBack] and [canGoForward] of a tab's navigation bar. *)
Definition canGoBack (tab : Tab) : bool := currentHistoryIndex tab >? 0.

Definition canGoForward (tab : Tab) : bool :=
  currentHistoryIndex tab <? Js.length (history tab) - 1.

(** The tab's pane is ['visible'] rather than ['hidden']. *)
Definition isVisible (s : BrowserState) (tab : Tab) : bool :=
  String.eqb (id tab) (activeTabId s).

(** What fills the pane below the navigation bar: the security notice
    with the error text and a link to the url, the new-tab page, or a
    frame on the url. *)
Inductive TabContent : Type :=
| SecurityNotice (message : string) (link : option string)
| NewTabPage
| Frame (src : string) (frameTitle : string) (dataTabId : string).

(** [tab.error ? ... : !tab.url ? ... : ...]; the empty string and
    [null] or [undefined] are falsy. *)
Definition tabContent (tab : Tab) : TabContent :=
  let pageOrFrame :=
    match url tab with
    | None => NewTabPage
    | Some u => if String.eqb u "" then NewTabPage
                else Frame u (title tab) (id tab)
    end in
  match error tab with
  | None => pageOrFrame
  | Some message =>
      if String.eqb message "" then pageOrFrame
      else SecurityNotice message (url tab)
  end.

(** The React key of a tab's pane, [`${tab.id}-${tab.url}`]. *)
Definition tabKey (tab : Tab) : string :=
  (id tab ++ "-" ++
   match url tab with Some u => u | None => "undefined" end)%string.

(** ** Bookmarks of the new-tab page ([NewTabPage.tsx]) *)

Module Bookmark.

(** [Bookmark] of [types.ts]; [createdAt] is a time stamp. *)
Record t : Type := mk {
  id : string;
  url : string;
  title : string;
  icon : option string;
  createdAt : Z
}.

End Bookmark.

(** [arr.sort(compare)]: the sort is stable, and puts [a] before [b]
    when [compare a b] is negative. For a comparator that orders the
    elements consistently the outcome is that of any stable sort; this
    is one by insertion. *)
Fixpoint sortInsert {A} (compare : A -> A -> Z) (a : A) (sorted : list A)
  : list A :=
  match sorted with
  | [] => [a]
  | b :: rest =>
      if compare a b <=? 0 then a :: b :: rest
      else b :: sortInsert compare a rest
  end.

Fixpoint sortWith {A} (compare : A -> A -> Z) (arr : list A) : list A :=
  match arr with
  | [] => []
  | a :: rest => sortInsert compare a (sortWith compare rest)
  end.

(** [loadBookmarks]: [stored] is the array parsed out of the storage
    entry, [None] when there is no entry (then the text parsed is "[]").
    The result is what [setBookmarks] receives. *)
Definition loadBookmarks (stored : option (list Bookmark.t))
  : list Bookmark.t :=
  let data := match stored with Some data => data | None => [] end in
  sortWith (fun a b => Bookmark.createdAt b - Bookmark.createdAt a) data.

(** [handleShortcutClick]: the prop [onNavigate] is optional. *)
Definition handleShortcutClick
  (onNavigate : option (string -> BrowserState -> result))
  (url : string) (s : BrowserState) : result :=
  match onNavigate with
  | Some navigate => navigate url s
  | None => Ok s
  end.

(** ** Further invariants and sessions *)

(** The url a tab shows is the history entry under its cursor. *)
Definition url_synced (tab : Tab) : Prop :=
  url tab = Js.index (history tab) (currentHistoryIndex tab).

(** Every command of [cs] is admissible in the state it runs in. *)
Fixpoint admissibleAll (hostname : string -> option string)
  (cs : list Command) (s : BrowserState) : Prop :=
  match cs with
  | [] => True
  | c :: rest =>
      admissible c s /\
      admissibleAll hostname rest (state_of (step hostname c s))
  end.

(** Some command of [cs] throws in the state it runs in. *)
Fixpoint throwsAlong (hostname : string -> option string)
  (cs : list Command) (s : BrowserState) : bool :=
  match cs with
  | [] => false
  | c :: rest =>
      threw (step hostname c s)
      || throwsAlong hostname rest (state_of (step hostname c s))
  end.

(** A tab whose history has an entry and whose cursor is not negative. *)
Definition history_live (t : Tab) : Prop :=
  history t <> [] /\ 0 <= currentHistoryIndex t.

(** * Properties *)

(** ** [updateActiveTab] and [activeTab] *)

Lemma id_spread tab updates : id (spread tab updates) = id tab.
Proof. reflexivity. Qed.

Lemma activeTabId_updateActiveTab updates s :
  activeTabId (updateActiveTab updates s) = activeTabId s.
Proof. reflexivity. Qed.

Lemma ids_updateActiveTab updates s : ids (updateActiveTab updates s) = ids s.
Proof.
  unfold ids, updateActiveTab; simpl.
  rewrite map_map. apply map_ext.
  intros tab. destruct (String.eqb (id tab) (activeTabId s)); reflexivity.
Qed.

Lemma nth_error_updateActiveTab updates s i :
  nth_error (tabs (updateActiveTab updates s)) i =
  option_map (fun tab => if String.eqb (id tab) (activeTabId s)
                         then spread tab updates else tab)
             (nth_error (tabs s) i).
Proof. unfold updateActiveTab; simpl. apply nth_error_map. Qed.

Lemma activeTab_updateActiveTab updates s :
  activeTab (updateActiveTab updates s) =
  option_map (fun tab => spread tab updates) (activeTab s).
Proof.
  unfold activeTab, updateActiveTab; simpl.
  induction (tabs s) as [|tab rest IH]; simpl; [reflexivity|].
  destruct (String.eqb (id tab) (activeTabId s)) eqn:E; simpl.
  - rewrite E. reflexivity.
  - rewrite E. exact IH.
Qed.

Lemma activeTab_Some s t :
  activeTab s = Some t -> In t (tabs s) /\ id t = activeTabId s.
Proof.
  unfold activeTab. intros H. apply find_some in H.
  destruct H as [Hin Heq]. apply String.eqb_eq in Heq. auto.
Qed.

Lemma activeTab_None s :
  activeTab s = None -> ~ In (activeTabId s) (ids s).
Proof.
  unfold activeTab, ids. intros H Hin.
  apply in_map_iff in Hin. destruct Hin as [t [Hid Hin]].
  apply (find_none _ _ H) in Hin. rewrite Hid, String.eqb_refl in Hin.
  discriminate.
Qed.

Lemma active_resolves_activeTab s :
  In (activeTabId s) (ids s) -> exists t, activeTab s = Some t.
Proof.
  intros Hin. destruct (activeTab s) as [t|] eqn:E; [eauto|].
  elim (activeTab_None _ E Hin).
Qed.

(** With no tab carrying [activeTabId], [updateActiveTab] changes
    nothing. *)
Lemma updateActiveTab_dangling updates s :
  activeTab s = None -> updateActiveTab updates s = s.
Proof.
  intros H. apply activeTab_None in H.
  destruct s as [ts a]. unfold updateActiveTab, ids in *; simpl in *.
  f_equal. induction ts as [|tab rest IH]; simpl; [reflexivity|].
  simpl in H. destruct (String.eqb (id tab) a) eqn:E.
  - apply String.eqb_eq in E. elim H. auto.
  - f_equal. apply IH. intros Hin. apply H. auto.
Qed.

(** *** Every tab command is [updateActiveTab] or nothing *)

Lemma stepTab_shape hostname c s :
  state_of (stepTab hostname c s) = s \/
  exists updates, state_of (stepTab hostname c s) = updateActiveTab updates s.
Proof.
  destruct c; simpl;
    unfold handleKeyPress, handleNavigate, handleBack, handleForward,
      handleRefresh, handleIframeError, handleIframeLoad; simpl;
    repeat match goal with
      | |- context [match ?x with _ => _ end] => destruct x eqn:?; simpl
      end; eauto.
Qed.

(** A tab command that throws leaves the state as it found it. *)
Lemma stepTab_threw_unchanged hostname c s :
  threw (stepTab hostname c s) = true ->
  activeTab s = None /\ state_of (stepTab hostname c s) = s.
Proof.
  destruct (activeTab s) as [t|] eqn:Ht.
  - destruct c as [typed | dest | | | | | docTitle]; simpl;
      unfold handleKeyPress, handleNavigate, handleBack, handleForward,
        handleRefresh, handleIframeError, handleIframeLoad; simpl;
      rewrite ?Ht;
      try destruct (currentHistoryIndex t >? 0);
      try destruct (currentHistoryIndex t <? Js.length (history t) - 1);
      try (destruct docTitle as [d|]; [destruct (negb (String.eqb d ""))|]);
      simpl; discriminate.
  - intros _. split; [reflexivity|].
    destruct (stepTab_shape hostname c s) as [E | [updates E]]; rewrite E;
      [reflexivity | now apply updateActiveTab_dangling].
Qed.

(** ** Frame of the tab commands *)

Lemma differs_is_active updates s i t :
  nth_error (tabs s) i = Some t ->
  nth_error (tabs (updateActiveTab updates s)) i <> Some t ->
  id t = activeTabId s.
Proof.
  intros Hnth Hdiff. rewrite nth_error_updateActiveTab, Hnth in Hdiff.
  simpl in Hdiff. destruct (String.eqb (id t) (activeTabId s)) eqn:E.
  - now apply String.eqb_eq.
  - now elim Hdiff.
Qed.

(** C10. The commands navigate, back, forward, refresh,
    reportDisplayError and reportLoadSuccess leave [activeTabId] as it
    was, keep the tabs in their places (the sequence of ids is the same),
    and return every tab whose id is not [activeTabId] unchanged; where
    ids are unique, at most one position of [tabs] holds a different
    tab afterwards. *)
Theorem tab_commands_frame hostname (c : TabCommand) (s : BrowserState) :
  let s' := state_of (stepTab hostname c s) in
  activeTabId s' = activeTabId s /\
  ids s' = ids s /\
  (forall i t, nth_error (tabs s) i = Some t ->
               id t <> activeTabId s ->
               nth_error (tabs s') i = Some t) /\
  (NoDup (ids s) ->
   forall i j, nth_error (tabs s') i <> nth_error (tabs s) i ->
               nth_error (tabs s') j <> nth_error (tabs s) j ->
               i = j).
Proof.
  intros s'. subst s'.
  destruct (stepTab_shape hostname c s) as [E | [updates E]]; rewrite E.
  - repeat split; try reflexivity; auto.
    intros _ i j Hi. now elim Hi.
  - repeat split.
    + apply ids_updateActiveTab.
    + intros i t Hnth Hid.
      rewrite nth_error_updateActiveTab, Hnth. simpl.
      destruct (String.eqb (id t) (activeTabId s)) eqn:Eq; [|reflexivity].
      apply String.eqb_eq in Eq. contradiction.
    + intros Hnd i j Hi Hj.
      assert (Hact : forall k,
                 nth_error (tabs (updateActiveTab updates s)) k <>
                 nth_error (tabs s) k ->
                 nth_error (ids s) k = Some (activeTabId s)).
      { intros k Hk. unfold ids. rewrite nth_error_map.
        destruct (nth_error (tabs s) k) as [t|] eqn:Hnth.
        - simpl. f_equal. eapply differs_is_active; eauto.
        - elim Hk. rewrite nth_error_updateActiveTab, Hnth. reflexivity. }
      pose proof (Hact i Hi) as Ei. pose proof (Hact j Hj) as Ej.
      apply (proj1 (NoDup_nth_error (ids s)) Hnd).
      * apply nth_error_Some. rewrite Ei. discriminate.
      * now rewrite Ei, Ej.
Qed.

(** ** Selecting a tab *)

(** C1 fails on the code: [onTabSelect] has no look-up, so selecting an
    id that no tab carries moves [activeTabId] to that id. *)
Lemma selectTab_unknown_id_changes_state :
  let s := initialState "t0" in
  (forall t, In t (tabs s) -> id t <> "ghost"%string) /\
  step (fun _ => None) (SelectTab "ghost") s
    = Ok {| tabs := tabs s; activeTabId := "ghost" |} /\
  activeTabId (state_of (step (fun _ => None) (SelectTab "ghost") s))
    <> activeTabId s /\
  state_of (step (fun _ => None) (SelectTab "ghost") s) <> s.
Proof.
  simpl. repeat split.
  - intros t [<- | []]. discriminate.
  - discriminate.
  - discriminate.
Qed.

(** C1, amended. selectTab(id) never fails, whether or not [id] is the
    id of a tab: it keeps [tabs] as they are and sets [activeTabId] to
    [id]. The state is returned unchanged exactly when [id] already is
    [activeTabId]. *)
Theorem selectTab_sets_activeTabId hostname (tabId : string) (s : BrowserState) :
  step hostname (SelectTab tabId) s = Ok (onTabSelect tabId s) /\
  tabs (onTabSelect tabId s) = tabs s /\
  activeTabId (onTabSelect tabId s) = tabId /\
  (onTabSelect tabId s = s <-> tabId = activeTabId s).
Proof.
  repeat split.
  - intros H. apply (f_equal activeTabId) in H. exact H.
  - intros ->. destruct s; reflexivity.
Qed.

(** ** The invariant along the commands *)

Lemma tab_of_id_unique (ts : list Tab) t1 t2 :
  NoDup (map id ts) -> In t1 ts -> In t2 ts -> id t1 = id t2 -> t1 = t2.
Proof.
  induction ts as [|t rest IH]; simpl; [tauto|].
  intros Hnd H1 H2 Hid. inversion Hnd as [|? ? Hnotin Hnd']; subst.
  destruct H1 as [-> | H1], H2 as [-> | H2]; auto.
  - elim Hnotin. rewrite Hid. now apply in_map.
  - elim Hnotin. rewrite <- Hid. now apply in_map.
Qed.

(** Taking tabs out keeps the remaining ids pairwise different. *)
Lemma ids_unique_filter (keep : Tab -> bool) (ts : list Tab) :
  NoDup (map id ts) -> NoDup (map id (filter keep ts)).
Proof.
  intros Hnd. induction ts as [|t rest IH]; simpl; [constructor|].
  simpl in Hnd. apply NoDup_cons_iff in Hnd. destruct Hnd as [Hfresh Hrest].
  destruct (keep t); simpl; [|now apply IH].
  apply NoDup_cons_iff. split; [|now apply IH].
  rewrite in_map_iff. intros [x [Hx Hin]]. apply filter_In in Hin.
  apply Hfresh. rewrite <- Hx. apply in_map. tauto.
Qed.

Lemma Invariant_initialState uuid : Invariant (initialState uuid).
Proof.
  constructor; unfold ids; simpl.
  - discriminate.
  - auto.
  - constructor; [intros [] | constructor].
  - constructor; [|constructor]. unfold cursor_in_range, Js.length; simpl. lia.
Qed.

Lemma Invariant_updateActiveTab updates s t :
  Invariant s -> activeTab s = Some t ->
  cursor_in_range (spread t updates) ->
  Invariant (updateActiveTab updates s).
Proof.
  intros [Hne Hact Hnd Hcur] Ht Hrange.
  apply activeTab_Some in Ht. destruct Ht as [Hin Hid].
  constructor.
  - simpl. destruct (tabs s); [congruence | discriminate].
  - rewrite ids_updateActiveTab. exact Hact.
  - rewrite ids_updateActiveTab. exact Hnd.
  - apply Forall_forall. intros x Hx. simpl in Hx.
    apply in_map_iff in Hx. destruct Hx as [t0 [<- Hin0]].
    destruct (String.eqb (id t0) (activeTabId s)) eqn:E.
    + apply String.eqb_eq in E.
      assert (t0 = t) as -> by (eapply tab_of_id_unique; eauto; congruence).
      exact Hrange.
    + rewrite Forall_forall in Hcur. auto.
Qed.

Lemma Invariant_cursor s t :
  Invariant s -> activeTab s = Some t -> cursor_in_range t.
Proof.
  intros [_ _ _ Hcur] Ht. apply activeTab_Some in Ht.
  rewrite Forall_forall in Hcur. apply Hcur. tauto.
Qed.

Lemma length_pushed {A} (h : list A) (e : Z) (x : A) :
  1 <= Js.length (Js.slice0 h e ++ [x]).
Proof. unfold Js.length. rewrite length_app. simpl. lia. Qed.

Lemma Invariant_stepTab hostname c s :
  Invariant s ->
  Invariant (state_of (stepTab hostname c s)) /\
  threw (stepTab hostname c s) = false.
Proof.
  intros Inv.
  destruct (active_resolves_activeTab s (active_resolves s Inv)) as [t Ht].
  pose proof (Invariant_cursor s t Inv Ht) as Hr.
  unfold cursor_in_range in Hr.
  destruct c as [inputValue | dest | | | | | docTitle]; simpl;
    unfold handleKeyPress, handleNavigate, handleBack, handleForward,
      handleRefresh, handleIframeError, handleIframeLoad; simpl; rewrite ?Ht.
  - split; [|reflexivity]. eapply Invariant_updateActiveTab; eauto.
    unfold cursor_in_range; simpl.
    pose proof (length_pushed (history t) (currentHistoryIndex t + 1)
                  (normalizeUrl inputValue)). lia.
  - split; [|reflexivity]. eapply Invariant_updateActiveTab; eauto.
    unfold cursor_in_range; simpl.
    pose proof (length_pushed (history t) (currentHistoryIndex t + 1) dest). lia.
  - destruct (currentHistoryIndex t >? 0) eqn:E; simpl; split; auto.
    eapply Invariant_updateActiveTab; eauto.
    unfold cursor_in_range; simpl. lia.
  - destruct (currentHistoryIndex t <? Js.length (history t) - 1) eqn:E;
      simpl; split; auto.
    eapply Invariant_updateActiveTab; eauto.
    unfold cursor_in_range; simpl. lia.
  - split; [|reflexivity]. eapply Invariant_updateActiveTab; eauto.
  - split; [|reflexivity]. eapply Invariant_updateActiveTab; eauto.
  - destruct docTitle as [d|]; [destruct (negb (String.eqb d ""))|];
      simpl; (split; [|reflexivity]); eapply Invariant_updateActiveTab; eauto.
Qed.

Lemma Invariant_handleNewTab uuid s :
  Invariant s -> ~ In uuid (ids s) -> Invariant (handleNewTab uuid s).
Proof.
  intros [Hne Hact Hnd Hcur] Hfresh.
  constructor; unfold ids, handleNewTab in *; simpl.
  - destruct (tabs s); discriminate.
  - rewrite map_app. apply in_or_app. right. simpl. auto.
  - rewrite map_app. simpl. apply NoDup_app; auto.
    + constructor; [intros [] | constructor].
    + intros x Hx [<- | []]. contradiction.
  - apply Forall_app. split; auto.
    constructor; [|constructor]. unfold cursor_in_range, Js.length; simpl. lia.
Qed.

Lemma in_filter_ids (tabId x : string) (ts : list Tab) :
  In x (map id ts) -> x <> tabId ->
  In x (map id (filter (fun tab => negb (String.eqb (id tab) tabId)) ts)).
Proof.
  intros Hin Hneq. apply in_map_iff in Hin. destruct Hin as [t [Hid Hin]].
  apply in_map_iff. exists t. split; auto.
  apply filter_In. split; auto.
  apply negb_true_iff, String.eqb_neq. congruence.
Qed.

Lemma Invariant_handleCloseTab uuid tabId s :
  Invariant s -> Invariant (handleCloseTab uuid tabId s).
Proof.
  intros [Hne Hact Hnd Hcur]. unfold handleCloseTab.
  destruct (filter _ (tabs s)) as [|first rest] eqn:E.
  - apply Invariant_initialState.
  - constructor; unfold ids in *; cbn [tabs activeTabId].
    + discriminate.
    + destruct (String.eqb (activeTabId s) tabId) eqn:Ea; [simpl; auto|].
      apply String.eqb_neq in Ea.
      rewrite <- E. now apply in_filter_ids.
    + rewrite <- E. now apply ids_unique_filter.
    + rewrite <- E. apply Forall_forall. intros x Hx.
      apply filter_In in Hx. rewrite Forall_forall in Hcur. apply Hcur. tauto.
Qed.

(** C2 fails on the code for selectTab: after selecting an id that no
    tab carries, [activeTabId] resolves to no tab. *)
Lemma selectTab_unknown_id_breaks_invariant :
  let s := initialState "t0" in
  Invariant s /\
  ~ Invariant (state_of (step (fun _ => None) (SelectTab "ghost") s)).
Proof.
  simpl. split.
  - apply Invariant_initialState.
  - intros [_ Hact _ _]. unfold ids in Hact; simpl in Hact.
    destruct Hact as [H | []]. discriminate.
Qed.

(** C2, amended. From a state that satisfies the invariant (tabs
    non-empty, [activeTabId] the id of some tab, ids pairwise different,
    every cursor within its history) no command throws, and the successor
    state satisfies the invariant exactly when the command is admissible:
    always for navigate, back, forward, refresh, the two reports and
    closeTab; for selectTab when the id is the id of a tab; for openTab
    when the generated id is not the id of a tab already. *)
Theorem commands_preserve_invariant hostname (c : Command) (s : BrowserState) :
  Invariant s ->
  (admissible c s <-> Invariant (state_of (step hostname c s))) /\
  threw (step hostname c s) = false.
Proof.
  intros Inv. destruct c as [c | uuid | uuid tabId | tabId]; simpl.
  - destruct (Invariant_stepTab hostname c s Inv). tauto.
  - split; [|reflexivity]. split.
    + now apply Invariant_handleNewTab.
    + intros [_ _ Hnd _] Hin. unfold ids, handleNewTab in *; simpl in *.
      rewrite map_app in Hnd. simpl in Hnd.
      apply NoDup_remove_2 in Hnd. apply Hnd. rewrite app_nil_r. exact Hin.
  - split; [|reflexivity]. split; [intros _|auto].
    now apply Invariant_handleCloseTab.
  - split; [|reflexivity]. destruct Inv as [Hne Hact Hnd Hcur]. split.
    + intros Hin. constructor; auto.
    + intros [_ Hact' _ _]. exact Hact'.
Qed.

Lemma commands_preserve_invariant_witness :
  Invariant (initialState "t0") /\
  ((admissible (OpenTab "t1") (initialState "t0") <->
    Invariant (state_of (step (fun _ => None) (OpenTab "t1")
                           (initialState "t0")))) /\
   threw (step (fun _ => None) (OpenTab "t1") (initialState "t0")) = false).
Proof.
  split.
  - apply Invariant_initialState.
  - apply (commands_preserve_invariant (fun _ => None) (OpenTab "t1")
             (initialState "t0") (Invariant_initialState "t0")).
Defined.

(** ** Navigation pushes onto the history *)

Lemma slice0_in_range {A} (h : list A) (c : Z) :
  0 <= c < Js.length h ->
  Js.slice0 h (c + 1) = firstn (S (Z.to_nat c)) h.
Proof.
  unfold Js.slice0, Js.length. intros Hc.
  destruct (Z.ltb_spec (c + 1) 0); [lia|].
  f_equal. lia.
Qed.

Lemma slice0_at_end {A} (h : list A) :
  Js.slice0 h (Js.length h - 1 + 1) = h.
Proof.
  unfold Js.slice0, Js.length.
  destruct (Z.ltb_spec (Z.of_nat (List.length h) - 1 + 1) 0); [lia|].
  replace (Z.to_nat _) with (List.length h) by lia.
  apply firstn_all.
Qed.

Lemma handleNavigate_active dest s t :
  activeTab s = Some t ->
  let pushed := Js.slice0 (history t) (currentHistoryIndex t + 1) ++ [dest] in
  handleNavigate dest s =
    Ok (updateActiveTab
          {| set_url := Some (Some dest); set_title := None;
             set_history := Some pushed;
             set_currentHistoryIndex := Some (Js.length pushed - 1);
             set_error := Some None |} s) /\
  activeTab (state_of (handleNavigate dest s)) =
    Some {| id := id t; url := Some dest; title := title t;
            history := pushed;
            currentHistoryIndex := Js.length pushed - 1;
            error := None |}.
Proof.
  intros Ht pushed. unfold handleNavigate. rewrite Ht. split; [reflexivity|].
  simpl. rewrite activeTab_updateActiveTab, Ht. reflexivity.
Qed.

(** Navigating from the end of a history appends, one destination after
    the other. *)
Lemma navigate_from_end hostname (dests : list string) :
  forall s t,
    activeTab s = Some t ->
    currentHistoryIndex t = Js.length (history t) - 1 ->
    exists t',
      activeTab (run hostname (map (fun d => OnTab (OnNavigate d)) dests) s)
        = Some t' /\
      history t' = history t ++ dests /\
      currentHistoryIndex t' = Js.length (history t') - 1.
Proof.
  induction dests as [|d rest IH]; intros s t Ht Hend.
  - exists t. simpl. rewrite app_nil_r. auto.
  - destruct (handleNavigate_active d s t Ht) as [_ Hnext].
    simpl in Hnext. rewrite Hend, slice0_at_end in Hnext.
    destruct (IH _ _ Hnext eq_refl) as [t' [Hact [Hh Hc]]].
    exists t'. split; [exact Hact|]. split; [|exact Hc].
    rewrite Hh. simpl. rewrite <- app_assoc. reflexivity.
Qed.

(** A submit in the address bar is [handleNavigate] on the normalised
    text. *)
Lemma run_address_bar hostname (typed : list string) :
  forall s,
    run hostname (map (fun x => OnTab (Navigate x)) typed) s =
    run hostname
      (map (fun d => OnTab (OnNavigate d)) (map normalizeUrl typed)) s.
Proof.
  induction typed as [|x rest IH]; intros s; [reflexivity|].
  simpl. apply IH.
Qed.

(** C3. With [0 <= cursor < len(entries)], navigating to [dest] leaves
    the active tab with entries [entries[0..cursor]] followed by [dest]
    and with the cursor on the new last index. Hence, starting from a
    fresh tab, after any sequence of navigations the entries are the
    empty destination followed by the destinations in the order given,
    repeated ones included, the cursor is [len(entries) - 1], and
    [entries[1..cursor]] is that sequence. The same holds of texts
    submitted in the address bar, whose destinations are the normalised
    texts. *)
Theorem navigate_pushes hostname (s : BrowserState) (t : Tab) :
  activeTab s = Some t ->
  cursor_in_range t ->
  (forall dest, exists t',
      step hostname (OnTab (OnNavigate dest)) s
        = Ok (state_of (handleNavigate dest s)) /\
      activeTab (state_of (handleNavigate dest s)) = Some t' /\
      history t' =
        firstn (S (Z.to_nat (currentHistoryIndex t))) (history t) ++ [dest] /\
      currentHistoryIndex t' = Js.length (history t') - 1 /\
      Js.index (history t') (currentHistoryIndex t') = Some dest) /\
  (forall uuid dests, t = createNewTab uuid -> exists t',
      activeTab (run hostname (map (fun d => OnTab (OnNavigate d)) dests) s)
        = Some t' /\
      history t' = ""%string :: dests /\
      currentHistoryIndex t' = Js.length (history t') - 1 /\
      firstn (Z.to_nat (currentHistoryIndex t')) (skipn 1 (history t'))
        = dests) /\
  (forall uuid typed, t = createNewTab uuid -> exists t',
      activeTab (run hostname (map (fun x => OnTab (Navigate x)) typed) s)
        = Some t' /\
      history t' = ""%string :: map normalizeUrl typed /\
      currentHistoryIndex t' = Js.length (history t') - 1).
Proof.
  intros Ht Hr. split; [|split].
  - intros dest.
    destruct (handleNavigate_active dest s t Ht) as [Hok Hact].
    eexists. split; [|split; [exact Hact|]].
    + simpl. rewrite Hok. reflexivity.
    + simpl. rewrite (slice0_in_range _ _ Hr). repeat split.
      unfold Js.index, Js.length. rewrite length_app. simpl.
      match goal with |- context [?a <? 0] => destruct (Z.ltb_spec a 0) end;
        [lia|].
      rewrite nth_error_app2 by lia.
      match goal with |- nth_error _ ?n = _ => replace n with 0%nat by lia end.
      reflexivity.
  - intros uuid dests ->.
    destruct (navigate_from_end hostname dests s _ Ht eq_refl)
      as [t' [Hact [Hh Hc]]].
    exists t'. simpl in Hh. repeat split; auto.
    rewrite Hc, Hh. unfold Js.length.
    cbn [skipn List.length].
    match goal with
    | |- firstn ?n _ = _ => replace n with (List.length dests) by lia
    end.
    apply firstn_all.
  - intros uuid typed ->. rewrite run_address_bar.
    destruct (navigate_from_end hostname (map normalizeUrl typed) s _ Ht
                eq_refl) as [t' [Hact [Hh Hc]]].
    exists t'. auto.
Qed.

Lemma navigate_pushes_witness :
  activeTab (initialState "t0") = Some (createNewTab "t0") /\
  cursor_in_range (createNewTab "t0") /\
  exists t',
    activeTab (run (fun _ => None)
                 (map (fun d => OnTab (OnNavigate d))
                    ["https://a.test"; "https://b.test"; "https://a.test"])
                 (initialState "t0"))%string = Some t' /\
    history t' =
      [""; "https://a.test"; "https://b.test"; "https://a.test"]%string /\
    currentHistoryIndex t' = 3.
Proof.
  assert (Ha : activeTab (initialState "t0") = Some (createNewTab "t0"))
    by reflexivity.
  assert (Hr : cursor_in_range (createNewTab "t0"))
    by (unfold cursor_in_range, Js.length; simpl; lia).
  split; [exact Ha | split; [exact Hr|]].
  destruct (proj1 (proj2 (navigate_pushes (fun _ => None) _ _ Ha Hr))
              "t0"%string
              ["https://a.test"; "https://b.test"; "https://a.test"]%string
              eq_refl)
    as [t' [Hact [Hh [Hc _]]]].
  exists t'. split; [exact Hact | split; [exact Hh|]].
  rewrite Hc, Hh. reflexivity.
Defined.

(** ** Back and forward *)

Lemma handleBack_moves s t :
  activeTab s = Some t -> currentHistoryIndex t > 0 ->
  activeTab (state_of (handleBack s)) =
    Some {| id := id t;
            url := Js.index (history t) (currentHistoryIndex t - 1);
            title := title t;
            history := history t;
            currentHistoryIndex := currentHistoryIndex t - 1;
            error := None |}.
Proof.
  intros Ht Hpos. unfold handleBack. rewrite Ht.
  destruct (Z.gtb_spec (currentHistoryIndex t) 0); [|lia].
  simpl. rewrite activeTab_updateActiveTab, Ht. reflexivity.
Qed.

Lemma handleForward_moves s t :
  activeTab s = Some t ->
  currentHistoryIndex t < Js.length (history t) - 1 ->
  activeTab (state_of (handleForward s)) =
    Some {| id := id t;
            url := Js.index (history t) (currentHistoryIndex t + 1);
            title := title t;
            history := history t;
            currentHistoryIndex := currentHistoryIndex t + 1;
            error := None |}.
Proof.
  intros Ht Hlt. unfold handleForward. rewrite Ht.
  destruct (Z.ltb_spec (currentHistoryIndex t) (Js.length (history t) - 1));
    [|lia].
  simpl. rewrite activeTab_updateActiveTab, Ht. reflexivity.
Qed.

Lemma index_in_range {A} (h : list A) (c : Z) :
  0 <= c < Js.length h -> exists x, Js.index h c = Some x.
Proof.
  unfold Js.index, Js.length. intros Hc.
  destruct (Z.ltb_spec c 0); [lia|].
  destruct (nth_error h (Z.to_nat c)) eqn:E; [eauto|].
  apply nth_error_None in E. lia.
Qed.

(** C4. In a state whose active tab has its cursor within its history:
    if the cursor is above 0, back() and then forward() leave the active
    tab showing the destination [history[cursor]] it had, with the cursor
    and the history as before; back() at cursor 0 and forward() at the
    last index return the state unchanged. *)
Theorem back_then_forward hostname (s : BrowserState) (t : Tab) :
  activeTab s = Some t ->
  cursor_in_range t ->
  (currentHistoryIndex t > 0 ->
   exists dest t',
     Js.index (history t) (currentHistoryIndex t) = Some dest /\
     activeTab (run hostname [OnTab Back; OnTab Forward] s) = Some t' /\
     url t' = Some dest /\
     Js.index (history t') (currentHistoryIndex t') = Some dest /\
     currentHistoryIndex t' = currentHistoryIndex t /\
     history t' = history t) /\
  (currentHistoryIndex t = 0 -> step hostname (OnTab Back) s = Ok s) /\
  (currentHistoryIndex t = Js.length (history t) - 1 ->
   step hostname (OnTab Forward) s = Ok s).
Proof.
  intros Ht Hr. unfold cursor_in_range in Hr. repeat split.
  - intros Hpos.
    destruct (index_in_range (history t) (currentHistoryIndex t) Hr)
      as [dest Hdest].
    pose proof (handleBack_moves s t Ht Hpos) as Hb.
    pose proof (handleForward_moves _ _ Hb) as Hf. simpl in Hf.
    specialize (Hf ltac:(lia)).
    replace (currentHistoryIndex t - 1 + 1) with (currentHistoryIndex t)
      in Hf by lia.
    eexists dest, _. split; [exact Hdest|].
    split; [exact Hf|]. simpl. rewrite Hdest. auto.
  - intros H0. simpl. unfold handleBack. rewrite Ht, H0. reflexivity.
  - intros Hlast. simpl. unfold handleForward. rewrite Ht, Hlast.
    rewrite Z.ltb_irrefl. reflexivity.
Qed.

Lemma back_then_forward_witness :
  let s := run (fun _ => None)
             [OnTab (OnNavigate "https://a.test");
              OnTab (OnNavigate "https://b.test")]%string
             (initialState "t0") in
  exists t,
    activeTab s = Some t /\ cursor_in_range t /\ currentHistoryIndex t > 0 /\
    exists t',
      activeTab (run (fun _ => None) [OnTab Back; OnTab Forward] s) = Some t' /\
      url t' = Some "https://b.test"%string.
Proof.
  intros s. eexists. split; [reflexivity|].
  assert (Hr : cursor_in_range
                 {| id := "t0"; url := Some "https://b.test"%string;
                    title := "New Tab";
                    history := [""; "https://a.test"; "https://b.test"]%string;
                    currentHistoryIndex := 2; error := None |})
    by (unfold cursor_in_range, Js.length; simpl; lia).
  split; [exact Hr|]. split; [reflexivity|].
  destruct (proj1 (back_then_forward (fun _ => None) s _ eq_refl Hr) eq_refl)
    as [dest [t' [Hdest [Hact [Hurl _]]]]].
  exists t'. split; [exact Hact|].
  rewrite Hurl, <- Hdest. reflexivity.
Defined.

(** ** Closing tabs *)

Lemma handleCloseTab_nonempty uuid tabId s :
  tabs (handleCloseTab uuid tabId s) <> [].
Proof.
  unfold handleCloseTab.
  destruct (filter _ (tabs s)); simpl; discriminate.
Qed.

(** C5. Closing the only tab of a state yields a state with exactly one
    tab: the tab [createNewTab] builds (history of length 1 holding the
    empty destination, cursor 0, title "New Tab", no load error), whose
    id is [activeTabId]. After closeTab, whatever the state and the id,
    [tabs] is not empty. *)
Theorem close_only_tab hostname (uuid : string) (s : BrowserState) (t : Tab) :
  tabs s = [t] ->
  (exists fresh,
     step hostname (CloseTab uuid (id t)) s
       = Ok {| tabs := [fresh]; activeTabId := id fresh |} /\
     fresh = createNewTab uuid /\
     history fresh = [""%string] /\
     Js.length (history fresh) = 1 /\
     currentHistoryIndex fresh = 0 /\
     url fresh = Some ""%string /\
     title fresh = "New Tab"%string /\
     error fresh = None) /\
  (forall uuid' tabId s0,
     tabs (state_of (step hostname (CloseTab uuid' tabId) s0)) <> []).
Proof.
  intros Hone. split.
  - exists (createNewTab uuid). repeat split.
    simpl. unfold handleCloseTab. rewrite Hone. simpl.
    rewrite String.eqb_refl. reflexivity.
  - intros. apply handleCloseTab_nonempty.
Qed.

Lemma close_only_tab_witness :
  let s := run (fun _ => None)
             [OnTab (OnNavigate "https://a.test"); OnTab ReportDisplayError]
             (initialState "t0") in
  exists t,
    tabs s = [t] /\
    step (fun _ => None) (CloseTab "t1" (id t)) s
      = Ok (initialState "t1").
Proof.
  intros s. eexists. split; [reflexivity|].
  destruct (proj1 (close_only_tab (fun _ => None) "t1" s _ eq_refl))
    as [fresh [Hstep [-> _]]].
  exact Hstep.
Defined.

Lemma filter_keeps_all (tabId : string) (ts : list Tab) :
  ~ In tabId (map id ts) ->
  filter (fun tab => negb (String.eqb (id tab) tabId)) ts = ts.
Proof.
  induction ts as [|t rest IH]; simpl; [reflexivity|].
  intros Hnotin. destruct (String.eqb (id t) tabId) eqn:E; simpl.
  - apply String.eqb_eq in E. elim Hnotin. auto.
  - f_equal. apply IH. intros Hin. apply Hnotin. auto.
Qed.

(** With unique ids, the filter of [handleCloseTab] takes out one tab
    and keeps the others where they were. *)
Lemma filter_removes_one (tabId : string) (ts : list Tab) :
  NoDup (map id ts) -> In tabId (map id ts) ->
  exists before closed after,
    ts = before ++ closed :: after /\ id closed = tabId /\
    filter (fun tab => negb (String.eqb (id tab) tabId)) ts = before ++ after.
Proof.
  intros Hnd Hin. apply in_map_iff in Hin. destruct Hin as [closed [Hid Hin]].
  apply in_split in Hin. destruct Hin as [before [after ->]].
  exists before, closed, after. repeat split; auto.
  rewrite map_app in Hnd. simpl in Hnd. apply NoDup_remove_2 in Hnd.
  rewrite Hid in Hnd.
  rewrite filter_app. simpl. rewrite Hid, String.eqb_refl. simpl.
  rewrite !filter_keeps_all; auto.
  - intros H. apply Hnd. apply in_or_app. auto.
  - intros H. apply Hnd. apply in_or_app. auto.
Qed.

(** C6. In a state with at least two tabs, unique ids and [activeTabId]
    the id of a tab, closing a tab that is there removes that tab and
    keeps the others in their order. If it was not the active tab,
    [activeTabId] stays; if it was, [activeTabId] becomes the id of the
    first of the remaining tabs. *)
Theorem close_one_of_many hostname (uuid tabId : string) (s : BrowserState) :
  (2 <= List.length (tabs s))%nat ->
  NoDup (ids s) ->
  In (activeTabId s) (ids s) ->
  In tabId (ids s) ->
  let s' := state_of (step hostname (CloseTab uuid tabId) s) in
  (exists before closed after,
     tabs s = before ++ closed :: after /\ id closed = tabId /\
     tabs s' = before ++ after) /\
  (tabId <> activeTabId s -> activeTabId s' = activeTabId s) /\
  (tabId = activeTabId s ->
   exists first rest, tabs s' = first :: rest /\ activeTabId s' = id first).
Proof.
  intros Hlen Hnd Hact Hin s'. subst s'. simpl.
  destruct (filter_removes_one tabId (tabs s) Hnd Hin)
    as [before [closed [after [Hsplit [Hid Hfilter]]]]].
  unfold handleCloseTab. rewrite Hfilter.
  destruct (before ++ after) as [|first rest] eqn:E.
  - apply (f_equal (@List.length Tab)) in E.
    rewrite Hsplit, length_app in Hlen. rewrite length_app in E.
    simpl in *. lia.
  - simpl. split; [|split].
    + exists before, closed, after. auto.
    + intros Hneq. destruct (String.eqb (activeTabId s) tabId) eqn:Ea; auto.
      apply String.eqb_eq in Ea. congruence.
    + intros ->. rewrite String.eqb_refl. eauto.
Qed.

Lemma close_one_of_many_witness :
  let s := run (fun _ => None) [OpenTab "t1"; OpenTab "t2"]
             (initialState "t0") in
  ((2 <= List.length (tabs s))%nat /\ NoDup (ids s) /\
   In (activeTabId s) (ids s) /\ In "t2"%string (ids s)) /\
  ids (state_of (step (fun _ => None) (CloseTab "t3" "t2") s))
    = ["t0"; "t1"]%string /\
  activeTabId (state_of (step (fun _ => None) (CloseTab "t3" "t2") s))
    = "t0"%string.
Proof.
  intros s.
  assert (Hlen : (2 <= List.length (tabs s))%nat) by (simpl; lia).
  assert (Hnd : NoDup (ids s)).
  { repeat constructor; simpl; intuition discriminate. }
  assert (Hact : In (activeTabId s) (ids s)) by (simpl; auto).
  assert (Hin : In "t2"%string (ids s)) by (simpl; auto).
  split; [auto|].
  destruct (close_one_of_many (fun _ => None) "t3" "t2" s Hlen Hnd Hact Hin)
    as [_ [_ Hfirst]].
  destruct (Hfirst eq_refl) as [first [rest [Htabs Hactive]]].
  split; [reflexivity|]. rewrite Hactive.
  injection Htabs as <- _. reflexivity.
Defined.

(** C7 fails on the code as worded. [handleCloseTab] has no error
    path: with the initial tab "t0" and the id "ghost", which no tab
    carries, the handler does not fail, it completes and returns the
    state. And the no-op is not there for every record of the state's
    type: where [activeTabId] is itself the id being closed (and so
    the id of no tab), the handler moves [activeTabId] to the first
    tab. *)
Lemma closeTab_unknown_id_does_not_fail :
  let s := initialState "t0" in
  let dangling := {| tabs := [createNewTab "t0"]; activeTabId := "ghost" |} in
  (~ In "ghost"%string (ids s) /\
   threw (step (fun _ => None) (CloseTab "t1" "ghost") s) = false /\
   step (fun _ => None) (CloseTab "t1" "ghost") s = Ok s) /\
  (~ In "ghost"%string (ids dangling) /\
   activeTabId (state_of (step (fun _ => None) (CloseTab "t1" "ghost")
                            dangling)) = "t0"%string /\
   activeTabId (state_of (step (fun _ => None) (CloseTab "t1" "ghost")
                            dangling)) <> activeTabId dangling).
Proof.
  simpl. unfold ids. simpl.
  repeat split; try reflexivity; try discriminate;
    intros [H | []]; discriminate.
Qed.

(** C7, amended. In a state whose [activeTabId] is the id of one of its
    tabs, closing an id that no tab carries does not fail, with NotFound
    or otherwise: the handler completes and returns the state it was
    given, [tabs] and [activeTabId] included. *)
Theorem close_unknown_tab hostname (uuid tabId : string) (s : BrowserState) :
  In (activeTabId s) (ids s) ->
  ~ In tabId (ids s) ->
  threw (step hostname (CloseTab uuid tabId) s) = false /\
  step hostname (CloseTab uuid tabId) s = Ok s /\
  tabs (state_of (step hostname (CloseTab uuid tabId) s)) = tabs s /\
  activeTabId (state_of (step hostname (CloseTab uuid tabId) s))
    = activeTabId s.
Proof.
  intros Hact Hnotin.
  assert (E : handleCloseTab uuid tabId s = s).
  { unfold handleCloseTab. rewrite (filter_keeps_all _ _ Hnotin).
    destruct s as [ts a]. unfold ids in *. simpl in *.
    destruct ts as [|first rest]; [contradiction|].
    destruct (String.eqb a tabId) eqn:Ea; [|reflexivity].
    apply String.eqb_eq in Ea. subst a. contradiction. }
  simpl. rewrite E. auto.
Qed.

Lemma close_unknown_tab_witness :
  let s := run (fun _ => None) [OpenTab "t1"] (initialState "t0") in
  In (activeTabId s) (ids s) /\ ~ In "ghost"%string (ids s) /\
  threw (step (fun _ => None) (CloseTab "t2" "ghost") s) = false /\
  step (fun _ => None) (CloseTab "t2" "ghost") s = Ok s.
Proof.
  intros s.
  assert (Hact : In (activeTabId s) (ids s)) by (simpl; auto).
  assert (Hnotin : ~ In "ghost"%string (ids s))
    by (simpl; intuition discriminate).
  split; [exact Hact | split; [exact Hnotin|]].
  destruct (close_unknown_tab (fun _ => None) "t2" "ghost" s Hact Hnotin)
    as [Hok [Hstep _]].
  split; [exact Hok | exact Hstep].
Defined.

(** ** The address bar *)

Lemma normalizeUrl_eq (inputValue : string) :
  normalizeUrl inputValue =
  if hasScheme (Js.trim inputValue) then Js.trim inputValue
  else ("https://" ++ Js.trim inputValue)%string.
Proof.
  unfold normalizeUrl, hasScheme.
  destruct (Js.startsWith _ "http://"), (Js.startsWith _ "https://");
    reflexivity.
Qed.

(** C8 fails on the code as worded: the handler trims the text first.
    The text " http://a.test" does not start with a scheme, yet what is
    pushed is "http://a.test", with no "https://" put in front. *)
Lemma navigate_trims_before_scheme_test :
  let s := initialState "t0" in
  let typed := " http://a.test"%string in
  hasScheme typed = false /\
  spec_normalizeUrl typed = "https:// http://a.test"%string /\
  option_map history
    (activeTab (state_of (step (fun _ => None) (OnTab (Navigate typed)) s)))
    = Some [""; "http://a.test"]%string /\
  option_map history
    (activeTab (state_of (step (fun _ => None) (OnTab (Navigate typed)) s)))
    <> Some [""; spec_normalizeUrl typed]%string.
Proof.
  simpl. repeat split; try reflexivity. discriminate.
Qed.

(** C8, amended. navigate(url) strips the white space at both ends of
    [url]; if what is left starts with neither "http://" nor "https://",
    "https://" is put in front. The result is the destination pushed onto
    the active tab's history (after the entries up to the cursor), it
    becomes the tab's url, and the tab's load error is cleared. For a url
    with no white space at its ends this is the normalisation the
    specification words. *)
Theorem navigate_normalizes hostname (typed : string) (s : BrowserState)
  (t : Tab) :
  activeTab s = Some t ->
  let trimmed := Js.trim typed in
  let dest := if hasScheme trimmed then trimmed
              else ("https://" ++ trimmed)%string in
  exists t',
    step hostname (OnTab (Navigate typed)) s
      = Ok (state_of (handleNavigate dest s)) /\
    activeTab (state_of (step hostname (OnTab (Navigate typed)) s))
      = Some t' /\
    history t' =
      Js.slice0 (history t) (currentHistoryIndex t + 1) ++ [dest] /\
    url t' = Some dest /\
    error t' = None /\
    (Js.trim typed = typed -> dest = spec_normalizeUrl typed).
Proof.
  intros Ht trimmed dest.
  assert (Hn : normalizeUrl typed = dest) by apply normalizeUrl_eq.
  destruct (handleNavigate_active dest s t Ht) as [Hok Hact].
  eexists. simpl. unfold handleKeyPress. simpl. rewrite Hn.
  split; [rewrite Hok; reflexivity|].
  split; [exact Hact|]. simpl. repeat split.
  intros Htrim. subst dest trimmed. rewrite Htrim. reflexivity.
Qed.

Lemma navigate_normalizes_witness :
  activeTab (initialState "t0") = Some (createNewTab "t0") /\
  exists t',
    activeTab (state_of (step (fun _ => None)
                           (OnTab (Navigate "  example.com "))
                           (initialState "t0"))) = Some t' /\
    history t' = [""; "https://example.com"]%string /\
    url t' = Some "https://example.com"%string /\
    error t' = None.
Proof.
  split; [reflexivity|].
  destruct (navigate_normalizes (fun _ => None) "  example.com "
              (initialState "t0") (createNewTab "t0") eq_refl)
    as [t' [_ [Hact [Hh [Hu [He _]]]]]].
  exists t'. auto.
Defined.

(** ** The load error *)

(** C9 fails on the code for back and forward: when they move the
    cursor, their update carries [error: null]. Here the error is set on
    a page reached by a navigation, and going back clears it. *)
Lemma back_clears_load_error :
  let s := run (fun _ => None)
             [OnTab (OnNavigate "https://a.test"); OnTab ReportDisplayError]
             (initialState "t0") in
  Reachable (fun _ => None) s /\
  option_map error (activeTab s) = Some (Some iframeErrorMessage) /\
  option_map error
    (activeTab (state_of (step (fun _ => None) (OnTab Back) s)))
    = Some None.
Proof.
  intros s. split; [|split; reflexivity].
  apply (reach_step _ (OnTab ReportDisplayError)).
  apply (reach_step _ (OnTab (OnNavigate "https://a.test"))).
  apply reach_init.
Qed.

(** C9, amended. Let the active tab carry a load error. selectTab and
    openTab return that tab as it is, error included; back() with the
    cursor at 0 (or below) and forward() with the cursor on the last
    index (or beyond) return the state unchanged. Of the commands on the
    active tab, those that leave it without a load error are exactly
    navigate, refresh, back() when the cursor is above 0 and forward()
    when the cursor is below the last index; after any other one the
    error is still present. *)
Theorem load_error_persistence hostname (s : BrowserState) (t : Tab)
  (e : string) :
  activeTab s = Some t ->
  error t = Some e ->
  (forall tabId,
      tabs (state_of (step hostname (SelectTab tabId) s)) = tabs s) /\
  (forall uuid,
      tabs (state_of (step hostname (OpenTab uuid) s))
        = tabs s ++ [createNewTab uuid]) /\
  (currentHistoryIndex t <= 0 -> step hostname (OnTab Back) s = Ok s) /\
  (currentHistoryIndex t >= Js.length (history t) - 1 ->
   step hostname (OnTab Forward) s = Ok s) /\
  (forall c, exists t',
      activeTab (state_of (step hostname (OnTab c) s)) = Some t' /\
      id t' = id t /\
      (clearsLoadError c t = true -> error t' = None) /\
      (clearsLoadError c t = false -> error t' <> None)).
Proof.
  intros Ht He. split; [reflexivity|]. split; [reflexivity|].
  split; [|split].
  - intros Hle. simpl. unfold handleBack. rewrite Ht.
    destruct (Z.gtb_spec (currentHistoryIndex t) 0); [lia | reflexivity].
  - intros Hge. simpl. unfold handleForward. rewrite Ht.
    destruct (Z.ltb_spec (currentHistoryIndex t) (Js.length (history t) - 1));
      [lia | reflexivity].
  - intros c.
    destruct c as [typed | dest | | | | | docTitle]; simpl;
      unfold handleKeyPress, handleNavigate, handleBack, handleForward,
        handleRefresh, handleIframeError, handleIframeLoad; simpl;
      rewrite ?Ht;
      try destruct (currentHistoryIndex t >? 0);
      try destruct (currentHistoryIndex t <? Js.length (history t) - 1);
      try (destruct docTitle as [d|]; [destruct (negb (String.eqb d ""))|]);
      simpl; rewrite ?activeTab_updateActiveTab, ?Ht; simpl;
      eexists; (split; [reflexivity|]); simpl; rewrite ?He;
      repeat split; intros; try discriminate; auto.
Qed.

Lemma load_error_persistence_witness :
  let s := run (fun _ => None)
             [OnTab (OnNavigate "https://a.test"); OnTab ReportDisplayError]
             (initialState "t0") in
  exists t,
    activeTab s = Some t /\ error t = Some iframeErrorMessage /\
    option_map error
      (activeTab (state_of (step (fun _ => None) (OnTab Forward) s)))
      = Some (Some iframeErrorMessage) /\
    option_map error
      (activeTab (state_of (step (fun _ => None) (OnTab Refresh) s)))
      = Some None.
Proof.
  intros s. eexists. split; [reflexivity|]. split; [reflexivity|].
  pose proof (load_error_persistence (fun _ => None) s _ iframeErrorMessage
                eq_refl eq_refl) as [_ [_ [_ [Hfwd Hall]]]].
  split.
  - rewrite (Hfwd ltac:(unfold Js.length; simpl; lia)). reflexivity.
  - destruct (Hall Refresh) as [t' [Hact [_ [Hclear _]]]].
    rewrite Hact. simpl. rewrite (Hclear eq_refl). reflexivity.
Defined.

(** ** A session, end to end *)

(** One tab; "example.com" typed in the address bar; a second tab
    opened and sent to "https://a.test", then closed: the first tab is
    back in front, with its url and history as they were left. *)
Example session_two_tabs :
  let s1 := run (fun _ => None) [OnTab (Navigate "example.com")]
              (initialState "T0") in
  let s2 := run (fun _ => None)
              [OpenTab "T1"; OnTab (Navigate "https://a.test")] s1 in
  let s3 := run (fun _ => None) [CloseTab "T2" "T1"] s2 in
  option_map url (activeTab s1) = Some (Some "https://example.com"%string) /\
  option_map history (activeTab s1)
    = Some [""; "https://example.com"]%string /\
  option_map currentHistoryIndex (activeTab s1) = Some 1 /\
  ids s2 = ["T0"; "T1"]%string /\ activeTabId s2 = "T1"%string /\
  option_map url (activeTab s2) = Some (Some "https://a.test"%string) /\
  ids s3 = ["T0"]%string /\ activeTabId s3 = "T0"%string /\
  activeTab s3 = activeTab s1.
Proof. repeat split. Qed.

(** History [A,B,C] at cursor 2: back, then a navigation to D, leaves
    [A,B,D] at cursor 2, and forward is then at its boundary. *)
Example session_forward_branch_discarded :
  let s := {| tabs := [ {| id := "T0"; url := Some "C"%string;
                           title := "New Tab";
                           history := ["A"; "B"; "C"]%string;
                           currentHistoryIndex := 2; error := None |} ];
              activeTabId := "T0" |} in
  let s' := run (fun _ => None) [OnTab Back; OnTab (OnNavigate "D")] s in
  option_map history (activeTab s') = Some ["A"; "B"; "D"]%string /\
  option_map currentHistoryIndex (activeTab s') = Some 2 /\
  step (fun _ => None) (OnTab Forward) s' = Ok s'.
Proof. repeat split. Qed.

Example trim_examples :
  Js.trim "  example.com " = "example.com"%string /\
  Js.trim "a b" = "a b"%string /\
  Js.trim "   " = EmptyString.
Proof. repeat split. Qed.

(** * Further properties of the handlers *)

(** ** The navigation buttons *)

Lemma handleBack_at_start s t :
  activeTab s = Some t -> currentHistoryIndex t <= 0 -> handleBack s = Ok s.
Proof.
  intros Ht Hle. unfold handleBack. rewrite Ht.
  destruct (Z.gtb_spec (currentHistoryIndex t) 0); [lia | reflexivity].
Qed.

Lemma handleForward_at_end s t :
  activeTab s = Some t ->
  currentHistoryIndex t >= Js.length (history t) - 1 ->
  handleForward s = Ok s.
Proof.
  intros Ht Hge. unfold handleForward. rewrite Ht.
  destruct (Z.ltb_spec (currentHistoryIndex t) (Js.length (history t) - 1));
    [lia | reflexivity].
Qed.

(** X1. The buttons of the visible tab tell what the handlers will do:
    back returns the state unchanged exactly when [canGoBack] is false,
    and otherwise moves the active tab's cursor one entry down; forward
    returns the state unchanged exactly when [canGoForward] is false,
    and otherwise moves the cursor one entry up. *)
Theorem buttons_match_handlers hostname (s : BrowserState) (t : Tab) :
  activeTab s = Some t ->
  (canGoBack t = false <-> state_of (step hostname (OnTab Back) s) = s) /\
  (canGoForward t = false <->
   state_of (step hostname (OnTab Forward) s) = s) /\
  (canGoBack t = true ->
   exists t', activeTab (state_of (step hostname (OnTab Back) s)) = Some t' /\
              currentHistoryIndex t' = currentHistoryIndex t - 1 /\
              history t' = history t) /\
  (canGoForward t = true ->
   exists t', activeTab (state_of (step hostname (OnTab Forward) s)) = Some t' /\
              currentHistoryIndex t' = currentHistoryIndex t + 1 /\
              history t' = history t).
Proof.
  intros Ht. unfold canGoBack, canGoForward. simpl.
  destruct (Z.gtb_spec (currentHistoryIndex t) 0) as [Hb | Hb];
    destruct (Z.ltb_spec (currentHistoryIndex t) (Js.length (history t) - 1))
      as [Hf | Hf];
    repeat split; try discriminate; intros H;
    try (rewrite (handleBack_at_start s t Ht) by lia; reflexivity);
    try (rewrite (handleForward_at_end s t Ht) by lia; reflexivity);
    try (eexists; split;
         [apply (handleBack_moves s t Ht); lia | split; reflexivity]);
    try (eexists; split;
         [apply (handleForward_moves s t Ht); lia | split; reflexivity]);
    exfalso.
  all: try (pose proof (handleBack_moves s t Ht ltac:(lia)) as Hm;
            rewrite H, Ht in Hm; injection Hm as Hm;
            apply (f_equal currentHistoryIndex) in Hm; simpl in Hm; lia).
  all: try (pose proof (handleForward_moves s t Ht ltac:(lia)) as Hm;
            rewrite H, Ht in Hm; injection Hm as Hm;
            apply (f_equal currentHistoryIndex) in Hm; simpl in Hm; lia).
Qed.

Lemma buttons_match_handlers_witness :
  let s := run (fun _ => None) [OnTab (OnNavigate "https://a.test")]
             (initialState "t0") in
  exists t,
    activeTab s = Some t /\ canGoBack t = true /\ canGoForward t = false /\
    state_of (step (fun _ => None) (OnTab Forward) s) = s.
Proof.
  intros s. eexists. split; [reflexivity|]. split; [reflexivity|].
  split; [reflexivity|].
  apply (proj1 (proj1 (proj2 (buttons_match_handlers (fun _ => None) s _
                                eq_refl)))).
  reflexivity.
Defined.

(** X2. Right after a navigation the active tab is at the end of its
    history: forward is disabled and is a no-op, whatever the state was.
    If the cursor was within the history, back is enabled and leads to
    the entry that was current before the navigation. *)
Theorem after_navigate_buttons hostname (dest : string) (s : BrowserState)
  (t : Tab) :
  activeTab s = Some t ->
  let s' := state_of (step hostname (OnTab (OnNavigate dest)) s) in
  exists t',
    activeTab s' = Some t' /\
    canGoForward t' = false /\
    step hostname (OnTab Forward) s' = Ok s' /\
    (cursor_in_range t ->
     canGoBack t' = true /\
     exists t'',
       activeTab (state_of (step hostname (OnTab Back) s')) = Some t'' /\
       currentHistoryIndex t'' = currentHistoryIndex t /\
       url t'' = Js.index (history t) (currentHistoryIndex t)).
Proof.
  intros Ht s'. subst s'. simpl.
  destruct (handleNavigate_active dest s t Ht) as [_ Hact].
  eexists. split; [exact Hact|].
  assert (Hfwd : canGoForward
                   {| id := id t; url := Some dest; title := title t;
                      history := Js.slice0 (history t)
                                   (currentHistoryIndex t + 1) ++ [dest];
                      currentHistoryIndex :=
                        Js.length (Js.slice0 (history t)
                                     (currentHistoryIndex t + 1) ++ [dest]) - 1;
                      error := None |} = false).
  { unfold canGoForward. simpl. apply Z.ltb_irrefl. }
  split; [exact Hfwd|]. split.
  - apply (handleForward_at_end _ _ Hact). simpl. lia.
  - intros Hr. pose proof Hr as Hr'. unfold cursor_in_range in Hr'.
    assert (Hlen : Js.length (Js.slice0 (history t)
                                (currentHistoryIndex t + 1) ++ [dest]) - 1
                   = currentHistoryIndex t + 1).
    { rewrite (slice0_in_range _ _ Hr). unfold Js.length in *.
      rewrite length_app, firstn_length_le by lia.
      cbn [List.length]. lia. }
    split.
    + unfold canGoBack. cbn [currentHistoryIndex]. rewrite Hlen.
      apply Z.gtb_lt. lia.
    + pose proof (handleBack_moves _ _ Hact) as Hb.
      cbn [currentHistoryIndex history id title] in Hb. rewrite Hlen in Hb.
      specialize (Hb ltac:(lia)).
      eexists. split; [exact Hb|]. cbn [currentHistoryIndex url].
      split; [lia|].
      replace (currentHistoryIndex t + 1 - 1) with (currentHistoryIndex t)
        by lia.
      rewrite (slice0_in_range _ _ Hr).
      unfold Js.index, Js.length in *.
      destruct (Z.ltb_spec (currentHistoryIndex t) 0); [lia|].
      rewrite nth_error_app1 by (rewrite firstn_length_le; lia).
      rewrite nth_error_firstn.
      destruct (Nat.ltb_spec (Z.to_nat (currentHistoryIndex t))
                  (S (Z.to_nat (currentHistoryIndex t)))); [reflexivity | lia].
Qed.

Lemma after_navigate_buttons_witness :
  activeTab (initialState "t0") = Some (createNewTab "t0") /\
  exists t',
    activeTab (state_of (step (fun _ => None)
                           (OnTab (OnNavigate "https://a.test"))
                           (initialState "t0"))) = Some t' /\
    canGoForward t' = false /\ canGoBack t' = true.
Proof.
  split; [reflexivity|].
  destruct (after_navigate_buttons (fun _ => None) "https://a.test"
              (initialState "t0") (createNewTab "t0") eq_refl)
    as [t' [Hact [Hf [_ Hb]]]].
  exists t'. split; [exact Hact | split; [exact Hf|]].
  apply Hb. unfold cursor_in_range, Js.length. simpl. lia.
Defined.

(** X3. Where forward is enabled and the cursor is not negative,
    forward() and then back() bring the active tab back to the entry it
    was on: same cursor, same history, the url [history[cursor]], and no
    load error. *)
Theorem forward_then_back hostname (s : BrowserState) (t : Tab) :
  activeTab s = Some t ->
  0 <= currentHistoryIndex t ->
  canGoForward t = true ->
  exists t',
    activeTab (run hostname [OnTab Forward; OnTab Back] s) = Some t' /\
    currentHistoryIndex t' = currentHistoryIndex t /\
    history t' = history t /\
    url t' = Js.index (history t) (currentHistoryIndex t) /\
    (exists dest, url t' = Some dest) /\
    error t' = None.
Proof.
  intros Ht Hpos Hfwd. unfold canGoForward in Hfwd. apply Z.ltb_lt in Hfwd.
  pose proof (handleForward_moves s t Ht Hfwd) as Hf.
  pose proof (handleBack_moves _ _ Hf) as Hb.
  cbn [currentHistoryIndex history id title] in Hb.
  specialize (Hb ltac:(lia)).
  replace (currentHistoryIndex t + 1 - 1) with (currentHistoryIndex t)
    in Hb by lia.
  eexists. split; [exact Hb|]. cbn [currentHistoryIndex history url error].
  repeat split.
  destruct (index_in_range (history t) (currentHistoryIndex t)) as [d Hd];
    [lia | eauto].
Qed.

Lemma forward_then_back_witness :
  let s := run (fun _ => None)
             [OnTab (OnNavigate "https://a.test"); OnTab Back]
             (initialState "t0") in
  exists t,
    activeTab s = Some t /\ 0 <= currentHistoryIndex t /\
    canGoForward t = true /\
    option_map url
      (activeTab (run (fun _ => None) [OnTab Forward; OnTab Back] s))
      = Some (Some ""%string).
Proof.
  intros s. eexists. split; [reflexivity|].
  split; [apply Z.le_refl|]. split; [reflexivity|].
  destruct (forward_then_back (fun _ => None) s _ eq_refl (Z.le_refl 0)
              eq_refl) as [t' [Hact [_ [_ [Hurl _]]]]].
  rewrite Hact. simpl. rewrite Hurl. reflexivity.
Defined.

Lemma run_cons hostname c cs s :
  run hostname (c :: cs) s = run hostname cs (state_of (step hostname c s)).
Proof. reflexivity. Qed.

Lemma back_repeated hostname (k : nat) :
  forall s t,
    activeTab s = Some t -> 0 <= currentHistoryIndex t -> url_synced t ->
    exists t',
      activeTab (run hostname (repeat (OnTab Back) k) s) = Some t' /\
      history t' = history t /\
      currentHistoryIndex t' = Z.max 0 (currentHistoryIndex t - Z.of_nat k) /\
      url_synced t'.
Proof.
  induction k as [|k IH]; intros s t Ht Hpos Hsync.
  - exists t. simpl. repeat split; auto. lia.
  - cbn [repeat]. rewrite run_cons. simpl step.
    destruct (Z.eq_dec (currentHistoryIndex t) 0) as [H0 | Hn0].
    + rewrite (handleBack_at_start s t Ht) by lia. simpl state_of.
      destruct (IH s t Ht Hpos Hsync) as [t' [Hact [Hh [Hc Hs]]]].
      exists t'. repeat split; auto. lia.
    + pose proof (handleBack_moves s t Ht ltac:(lia)) as Hb.
      destruct (IH _ _ Hb) as [t' [Hact [Hh [Hc Hs]]]].
      * simpl. lia.
      * reflexivity.
      * exists t'. simpl in Hh, Hc. repeat split; auto. lia.
Qed.

Lemma forward_repeated hostname (k : nat) :
  forall s t,
    activeTab s = Some t ->
    currentHistoryIndex t <= Js.length (history t) - 1 -> url_synced t ->
    exists t',
      activeTab (run hostname (repeat (OnTab Forward) k) s) = Some t' /\
      history t' = history t /\
      currentHistoryIndex t' =
        Z.min (Js.length (history t) - 1)
              (currentHistoryIndex t + Z.of_nat k) /\
      url_synced t'.
Proof.
  induction k as [|k IH]; intros s t Ht Hle Hsync.
  - exists t. simpl. repeat split; auto. lia.
  - cbn [repeat]. rewrite run_cons. simpl step.
    destruct (Z.eq_dec (currentHistoryIndex t) (Js.length (history t) - 1))
      as [He | Hne].
    + rewrite (handleForward_at_end s t Ht) by lia. simpl state_of.
      destruct (IH s t Ht Hle Hsync) as [t' [Hact [Hh [Hc Hs]]]].
      exists t'. repeat split; auto. lia.
    + pose proof (handleForward_moves s t Ht ltac:(lia)) as Hf.
      destruct (IH _ _ Hf) as [t' [Hact [Hh [Hc Hs]]]].
      * simpl. lia.
      * reflexivity.
      * exists t'. simpl in Hh, Hc. repeat split; auto. lia.
Qed.

(** X4. Back and forward never leave the history. From a tab whose
    cursor is within its history and whose url is the entry under it,
    pressing back [k] times puts the cursor at [max 0 (cursor - k)] and
    pressing forward [k] times puts it at [min (len - 1) (cursor + k)];
    the history is untouched and the url shown is again the entry under
    the cursor. *)
Theorem back_forward_repeated hostname (k : nat) (s : BrowserState)
  (t : Tab) :
  activeTab s = Some t ->
  cursor_in_range t ->
  url_synced t ->
  (exists t',
      activeTab (run hostname (repeat (OnTab Back) k) s) = Some t' /\
      history t' = history t /\
      currentHistoryIndex t' = Z.max 0 (currentHistoryIndex t - Z.of_nat k) /\
      url t' = Js.index (history t) (currentHistoryIndex t')) /\
  (exists t',
      activeTab (run hostname (repeat (OnTab Forward) k) s) = Some t' /\
      history t' = history t /\
      currentHistoryIndex t' =
        Z.min (Js.length (history t) - 1)
              (currentHistoryIndex t + Z.of_nat k) /\
      url t' = Js.index (history t) (currentHistoryIndex t')).
Proof.
  intros Ht Hr Hsync. unfold cursor_in_range in Hr. split.
  - destruct (back_repeated hostname k s t Ht ltac:(lia) Hsync)
      as [t' [Hact [Hh [Hc Hs]]]].
    exists t'. repeat split; auto. unfold url_synced in Hs. now rewrite <- Hh.
  - destruct (forward_repeated hostname k s t Ht ltac:(lia) Hsync)
      as [t' [Hact [Hh [Hc Hs]]]].
    exists t'. repeat split; auto. unfold url_synced in Hs. now rewrite <- Hh.
Qed.

Lemma back_forward_repeated_witness :
  let s := run (fun _ => None)
             [OnTab (OnNavigate "https://a.test");
              OnTab (OnNavigate "https://b.test")]
             (initialState "t0") in
  exists t,
    activeTab s = Some t /\ cursor_in_range t /\ url_synced t /\
    option_map currentHistoryIndex
      (activeTab (run (fun _ => None) (repeat (OnTab Back) 5) s)) = Some 0.
Proof.
  intros s. eexists. split; [reflexivity|].
  assert (Hr : cursor_in_range
                 {| id := "t0"; url := Some "https://b.test"%string;
                    title := "New Tab";
                    history := [""; "https://a.test"; "https://b.test"]%string;
                    currentHistoryIndex := 2; error := None |})
    by (unfold cursor_in_range, Js.length; simpl; lia).
  split; [exact Hr|]. split; [reflexivity|].
  destruct (proj1 (back_forward_repeated (fun _ => None) 5 s _ eq_refl Hr
                     eq_refl)) as [t' [Hact [_ [Hc _]]]].
  rewrite Hact. simpl. rewrite Hc. reflexivity.
Defined.

(** ** The address bar, further *)

Lemma trimEnd_keeps_head c rest :
  Js.isWhiteSpace c = false ->
  Js.trimEnd (String c rest) = String c (Js.trimEnd rest).
Proof.
  intros Hc. simpl. rewrite Hc. destruct (Js.trimEnd rest); reflexivity.
Qed.

Lemma trimEnd_idempotent s : Js.trimEnd (Js.trimEnd s) = Js.trimEnd s.
Proof.
  induction s as [|c rest IH]; [reflexivity|].
  simpl. destruct (Js.trimEnd rest) as [|k kept] eqn:E.
  - destruct (Js.isWhiteSpace c) eqn:Hc; [reflexivity|].
    simpl. rewrite Hc. reflexivity.
  - change (Js.trimEnd (String c (String k kept)))
      with (match Js.trimEnd (String k kept) with
            | EmptyString => if Js.isWhiteSpace c then EmptyString
                             else String c EmptyString
            | String _ _ as kept' => String c kept'
            end).
    rewrite IH. reflexivity.
Qed.

Lemma trimStart_head s :
  Js.trimStart s = EmptyString \/
  exists c rest, Js.trimStart s = String c rest /\ Js.isWhiteSpace c = false.
Proof.
  induction s as [|c rest IH]; [now left|].
  simpl. destruct (Js.isWhiteSpace c) eqn:Hc; [exact IH|].
  right. eauto.
Qed.

Lemma trimStart_fixed c rest :
  Js.isWhiteSpace c = false -> Js.trimStart (String c rest) = String c rest.
Proof. intros Hc. simpl. now rewrite Hc. Qed.

Lemma trim_idempotent s : Js.trim (Js.trim s) = Js.trim s.
Proof.
  unfold Js.trim.
  destruct (trimStart_head s) as [E | [c [rest [E Hc]]]]; rewrite E.
  - reflexivity.
  - rewrite (trimEnd_keeps_head _ _ Hc), (trimStart_fixed _ _ Hc).
    rewrite <- (trimEnd_keeps_head _ _ Hc). apply trimEnd_idempotent.
Qed.

Lemma trim_https_prefixed u :
  Js.trim ("https://" ++ Js.trim u) = ("https://" ++ Js.trim u)%string.
Proof.
  unfold Js.trim at 1. cbn [append].
  rewrite trimStart_fixed by reflexivity.
  rewrite !trimEnd_keeps_head by reflexivity.
  unfold Js.trim. rewrite trimEnd_idempotent. reflexivity.
Qed.

Lemma normalizeUrl_hasScheme typed : hasScheme (normalizeUrl typed) = true.
Proof.
  rewrite normalizeUrl_eq.
  destruct (hasScheme (Js.trim typed)) eqn:E; [exact E|].
  unfold hasScheme, Js.startsWith. cbn.
  destruct (Js.trim typed); reflexivity.
Qed.

Lemma normalizeUrl_nonempty typed : String.eqb (normalizeUrl typed) "" = false.
Proof.
  apply String.eqb_neq. intros E.
  pose proof (normalizeUrl_hasScheme typed) as Hs. rewrite E in Hs.
  discriminate.
Qed.

Lemma normalizeUrl_trimmed typed :
  Js.trim (normalizeUrl typed) = normalizeUrl typed.
Proof.
  rewrite normalizeUrl_eq.
  destruct (hasScheme (Js.trim typed));
    [apply trim_idempotent | apply trim_https_prefixed].
Qed.

(** X5. What the address bar hands to [onNavigate] always starts with
    "http://" or "https://", so it is never empty, and it has no white
    space at its ends; submitting it again gives the same url. *)
Theorem normalizeUrl_normal (typed : string) :
  hasScheme (normalizeUrl typed) = true /\
  normalizeUrl typed <> ""%string /\
  Js.trim (normalizeUrl typed) = normalizeUrl typed /\
  normalizeUrl (normalizeUrl typed) = normalizeUrl typed.
Proof.
  repeat split.
  - apply normalizeUrl_hasScheme.
  - apply String.eqb_neq, normalizeUrl_nonempty.
  - apply normalizeUrl_trimmed.
  - rewrite (normalizeUrl_eq (normalizeUrl typed)), normalizeUrl_trimmed,
      normalizeUrl_hasScheme. reflexivity.
Qed.

(** ** What the pane shows *)

(** X6. After a submit in the address bar the active tab's pane is a
    frame on the normalised url, whatever was typed (the empty text
    gives a frame on "https://"). After a click on a shortcut tile the
    pane is a frame on the tile's url, or the new-tab page if that url is
    empty. Either way no security notice is left. *)
Theorem content_after_navigation hostname (typed dest : string)
  (s : BrowserState) (t : Tab) :
  activeTab s = Some t ->
  (exists t',
     activeTab (state_of (step hostname (OnTab (Navigate typed)) s))
       = Some t' /\
     tabContent t' = Frame (normalizeUrl typed) (title t) (id t)) /\
  (exists t',
     activeTab (state_of (handleShortcutClick (Some handleNavigate) dest s))
       = Some t' /\
     tabContent t' = if String.eqb dest "" then NewTabPage
                     else Frame dest (title t) (id t)).
Proof.
  intros Ht. split.
  - destruct (handleNavigate_active (normalizeUrl typed) s t Ht) as [_ Hact].
    eexists. split; [exact Hact|].
    unfold tabContent. cbn [error url title id].
    rewrite normalizeUrl_nonempty. reflexivity.
  - destruct (handleNavigate_active dest s t Ht) as [_ Hact].
    eexists. split; [exact Hact|]. reflexivity.
Qed.

Lemma content_after_navigation_witness :
  activeTab (initialState "t0") = Some (createNewTab "t0") /\
  option_map tabContent
    (activeTab (state_of (step (fun _ => None) (OnTab (Navigate ""))
                            (initialState "t0"))))
    = Some (Frame "https://" "New Tab" "t0").
Proof.
  split; [reflexivity|].
  destruct (proj1 (content_after_navigation (fun _ => None) "" ""
                     (initialState "t0") _ eq_refl)) as [t' [Hact Hc]].
  rewrite Hact. simpl. rewrite Hc. reflexivity.
Defined.

(** X7. When the frame reports an error, the active tab's pane becomes
    the security notice with the fixed message and a link to the tab's
    url, also for a tab that has no url; history, cursor and url stay.
    A refresh takes the notice away and brings back the frame on the
    same url (or the new-tab page), with the title still "Cannot Display
    Content". *)
Theorem display_error_notice hostname (s : BrowserState) (t : Tab) :
  activeTab s = Some t ->
  (exists t1,
     activeTab (state_of (step hostname (OnTab ReportDisplayError) s))
       = Some t1 /\
     tabContent t1 = SecurityNotice iframeErrorMessage (url t) /\
     url t1 = url t /\ history t1 = history t /\
     currentHistoryIndex t1 = currentHistoryIndex t) /\
  (exists t2,
     activeTab (run hostname [OnTab ReportDisplayError; OnTab Refresh] s)
       = Some t2 /\
     tabContent t2 =
       match url t with
       | None => NewTabPage
       | Some u => if String.eqb u "" then NewTabPage
                   else Frame u "Cannot Display Content" (id t)
       end /\
     url t2 = url t /\ history t2 = history t /\
     currentHistoryIndex t2 = currentHistoryIndex t).
Proof.
  intros Ht.
  assert (H1 : activeTab (state_of (handleIframeError s)) =
               Some (spread t {| set_url := None;
                                 set_title := Some "Cannot Display Content"%string;
                                 set_history := None;
                                 set_currentHistoryIndex := None;
                                 set_error := Some (Some iframeErrorMessage) |})).
  { simpl. rewrite activeTab_updateActiveTab, Ht. reflexivity. }
  split.
  - eexists. split; [exact H1|]. repeat split.
  - eexists. split.
    + simpl. unfold handleRefresh. simpl in H1. rewrite H1. simpl.
      rewrite activeTab_updateActiveTab, H1. reflexivity.
    + repeat split.
Qed.

Lemma display_error_notice_witness :
  activeTab (initialState "t0") = Some (createNewTab "t0") /\
  option_map tabContent
    (activeTab (state_of (step (fun _ => None) (OnTab ReportDisplayError)
                            (initialState "t0"))))
    = Some (SecurityNotice iframeErrorMessage (Some ""%string)).
Proof.
  split; [reflexivity|].
  destruct (proj1 (display_error_notice (fun _ => None) (initialState "t0") _
                     eq_refl)) as [t1 [Hact [Hc _]]].
  rewrite Hact. simpl. rewrite Hc. reflexivity.
Defined.

(** ** Sessions *)

Lemma Forall_updateActiveTab (P : Tab -> Prop) updates s t :
  NoDup (ids s) -> activeTab s = Some t ->
  Forall P (tabs s) -> P (spread t updates) ->
  Forall P (tabs (updateActiveTab updates s)).
Proof.
  intros Hnd Ht Hall Hnew. apply activeTab_Some in Ht. destruct Ht as [Hin Hid].
  apply Forall_forall. intros x Hx. simpl in Hx.
  apply in_map_iff in Hx. destruct Hx as [t0 [<- Hin0]].
  destruct (String.eqb (id t0) (activeTabId s)) eqn:E.
  - apply String.eqb_eq in E.
    assert (t0 = t) as -> by (eapply tab_of_id_unique; eauto; congruence).
    exact Hnew.
  - rewrite Forall_forall in Hall. auto.
Qed.

Lemma index_last {A} (l : list A) (x : A) :
  Js.index (l ++ [x]) (Js.length (l ++ [x]) - 1) = Some x.
Proof.
  unfold Js.index, Js.length. rewrite length_app. cbn [List.length].
  match goal with |- context [?a <? 0] => destruct (Z.ltb_spec a 0) end;
    [lia|].
  rewrite nth_error_app2 by lia.
  match goal with |- nth_error _ ?n = _ => replace n with 0%nat by lia end.
  reflexivity.
Qed.

Lemma synced_stepTab hostname c s :
  Invariant s -> Forall url_synced (tabs s) ->
  Forall url_synced (tabs (state_of (stepTab hostname c s))).
Proof.
  intros Inv Hall.
  destruct (active_resolves_activeTab s (active_resolves s Inv)) as [t Ht].
  assert (Hsync : url_synced t).
  { rewrite Forall_forall in Hall. apply Hall.
    now apply activeTab_Some in Ht. }
  pose proof (ids_unique s Inv) as Hnd.
  destruct c as [typed | dest | | | | | docTitle]; simpl;
    unfold handleKeyPress, handleNavigate, handleBack, handleForward,
      handleRefresh, handleIframeError, handleIframeLoad; simpl; rewrite ?Ht;
    try destruct (currentHistoryIndex t >? 0);
    try destruct (currentHistoryIndex t <? Js.length (history t) - 1);
    try (destruct docTitle as [d|]; [destruct (negb (String.eqb d ""))|]);
    simpl; try exact Hall;
    (eapply Forall_updateActiveTab; [exact Hnd | exact Ht | exact Hall |]);
    unfold url_synced; cbn [spread url history currentHistoryIndex orKeep
                              set_url set_history set_currentHistoryIndex];
    try exact Hsync; try reflexivity;
    symmetry; apply index_last.
Qed.

Lemma Invariant_step hostname c s :
  Invariant s -> admissible c s ->
  Invariant (state_of (step hostname c s)) /\
  threw (step hostname c s) = false.
Proof.
  intros Inv Hadm. destruct c as [c | uuid | uuid tabId | tabId]; simpl.
  - now apply Invariant_stepTab.
  - split; [now apply Invariant_handleNewTab | reflexivity].
  - split; [now apply Invariant_handleCloseTab | reflexivity].
  - split; [|reflexivity]. destruct Inv. constructor; auto.
Qed.

Lemma synced_step hostname c s :
  Invariant s -> Forall url_synced (tabs s) ->
  Forall url_synced (tabs (state_of (step hostname c s))).
Proof.
  intros Inv Hall. destruct c as [c | uuid | uuid tabId | tabId]; simpl.
  - now apply synced_stepTab.
  - apply Forall_app. split; [exact Hall|].
    constructor; [reflexivity | constructor].
  - unfold handleCloseTab.
    destruct (filter _ (tabs s)) as [|first rest] eqn:E; simpl.
    + constructor; [reflexivity | constructor].
    + rewrite <- E. apply Forall_forall. intros x Hx.
      apply filter_In in Hx. rewrite Forall_forall in Hall. apply Hall. tauto.
  - exact Hall.
Qed.

Lemma session_from hostname (cs : list Command) :
  forall s,
    Invariant s -> Forall url_synced (tabs s) -> admissibleAll hostname cs s ->
    Invariant (run hostname cs s) /\
    Forall url_synced (tabs (run hostname cs s)) /\
    throwsAlong hostname cs s = false.
Proof.
  induction cs as [|c rest IH]; intros s Inv Hall Hadm.
  - simpl. auto.
  - destruct Hadm as [Hc Hrest].
    destruct (Invariant_step hostname c s Inv Hc) as [Inv' Hthrew].
    pose proof (synced_step hostname c s Inv Hall) as Hall'.
    destruct (IH _ Inv' Hall' Hrest) as [HI [HS HT]].
    rewrite run_cons. cbn [throwsAlong]. rewrite Hthrew, HT. auto.
Qed.

(** X8. A session that starts from the initial state and in which every
    selected id is the id of a tab and every generated id is unused
    never throws, and ends in a state that satisfies the invariant and
    in which every tab, active or not, has as url the history entry
    under its cursor. *)
Theorem session_safe hostname (uuid : string) (cs : list Command) :
  admissibleAll hostname cs (initialState uuid) ->
  let s := run hostname cs (initialState uuid) in
  Invariant s /\
  Forall url_synced (tabs s) /\
  (forall t, In t (tabs s) ->
     exists dest, url t = Some dest /\
                  Js.index (history t) (currentHistoryIndex t) = Some dest) /\
  throwsAlong hostname cs (initialState uuid) = false.
Proof.
  intros Hadm s.
  destruct (session_from hostname cs (initialState uuid)
              (Invariant_initialState uuid)) as [HI [HS HT]]; auto.
  { constructor; [reflexivity | constructor]. }
  fold s in HI, HS. repeat split; auto; try apply HI.
  intros t Hin.
  pose proof (proj1 (Forall_forall _ _) HS t Hin) as Hsync.
  pose proof (proj1 (Forall_forall _ _) (cursors_in_range s HI) t Hin) as Hr.
  destruct (index_in_range _ _ Hr) as [dest Hd].
  exists dest. unfold url_synced in Hsync. now rewrite Hsync.
Qed.

Lemma session_safe_witness :
  let cs := [OnTab (Navigate "example.com"); OpenTab "t1";
             OnTab (OnNavigate "https://a.test"); OnTab Back;
             SelectTab "t0"; OnTab ReportDisplayError; CloseTab "t2" "t0";
             OnTab Forward]%string in
  admissibleAll (fun _ => None) cs (initialState "t0") /\
  Invariant (run (fun _ => None) cs (initialState "t0")) /\
  throwsAlong (fun _ => None) cs (initialState "t0") = false.
Proof.
  intros cs.
  assert (Hadm : admissibleAll (fun _ => None) cs (initialState "t0")).
  { simpl. unfold ids. simpl. intuition discriminate. }
  split; [exact Hadm|].
  pose proof (session_safe (fun _ => None) "t0" cs Hadm) as [HI [_ [_ HT]]].
  split; [exact HI | exact HT].
Defined.

(** ** The visible pane *)

Lemma filter_visible_absent (a : string) (ts : list Tab) :
  ~ In a (map id ts) ->
  filter (fun tab => String.eqb (id tab) a) ts = [] /\
  find (fun tab => String.eqb (id tab) a) ts = None.
Proof.
  induction ts as [|x rest IH]; simpl; [auto|].
  intros Hnotin. destruct (String.eqb (id x) a) eqn:E.
  - apply String.eqb_eq in E. elim Hnotin. auto.
  - apply IH. intros Hin. apply Hnotin. auto.
Qed.

Lemma filter_visible_unique (a : string) (ts : list Tab) :
  NoDup (map id ts) -> In a (map id ts) ->
  exists t, filter (fun tab => String.eqb (id tab) a) ts = [t] /\
            find (fun tab => String.eqb (id tab) a) ts = Some t.
Proof.
  induction ts as [|x rest IH]; simpl; [tauto|].
  intros Hnd Hin. apply NoDup_cons_iff in Hnd. destruct Hnd as [Hfresh Hnd].
  destruct (String.eqb (id x) a) eqn:E.
  - apply String.eqb_eq in E. subst a.
    destruct (filter_visible_absent (id x) rest Hfresh) as [-> _]. eauto.
  - apply String.eqb_neq in E. destruct Hin as [Hin | Hin]; [contradiction|].
    auto.
Qed.

(** X9. With unique ids, the panes marked visible are: exactly one, the
    pane of the tab the handlers act on, when [activeTabId] is the id of
    a tab; none at all when it is not. *)
Theorem one_visible_pane (s : BrowserState) :
  NoDup (ids s) ->
  (In (activeTabId s) (ids s) ->
   exists t, filter (isVisible s) (tabs s) = [t] /\ activeTab s = Some t) /\
  (~ In (activeTabId s) (ids s) ->
   filter (isVisible s) (tabs s) = [] /\ activeTab s = None).
Proof.
  intros Hnd. split; intros H.
  - exact (filter_visible_unique (activeTabId s) (tabs s) Hnd H).
  - exact (filter_visible_absent (activeTabId s) (tabs s) H).
Qed.

Lemma one_visible_pane_witness :
  let s := run (fun _ => None) [OpenTab "t1"; OpenTab "t2"; SelectTab "t1"]
             (initialState "t0") in
  NoDup (ids s) /\
  filter (isVisible s) (tabs s) = [createNewTab "t1"].
Proof.
  intros s.
  assert (Hnd : NoDup (ids s)).
  { repeat constructor; simpl; intuition discriminate. }
  split; [exact Hnd|].
  destruct (proj1 (one_visible_pane s Hnd)) as [t [Hf Ha]].
  - simpl. auto.
  - rewrite Hf. f_equal. injection Ha as <-. reflexivity.
Defined.

(** ** Opening and closing, further *)

Lemma handleCloseTab_absent uuid tabId s :
  In (activeTabId s) (ids s) -> ~ In tabId (ids s) ->
  handleCloseTab uuid tabId s = s.
Proof.
  intros Hact Hnotin.
  unfold handleCloseTab. rewrite (filter_keeps_all _ _ Hnotin).
  destruct s as [ts a]. unfold ids in *. simpl in *.
  destruct ts as [|first rest]; [contradiction|].
  destruct (String.eqb a tabId) eqn:Ea; [|reflexivity].
  apply String.eqb_eq in Ea. subst a. contradiction.
Qed.

(** X10. Opening a tab under an unused id and closing it again gives
    back the tabs as they were, but [activeTabId] is then the id of the
    first tab, not the id that was active before. *)
Theorem open_then_close hostname (uuid uuid' : string) (s : BrowserState) :
  tabs s <> [] ->
  ~ In uuid (ids s) ->
  exists first rest,
    tabs s = first :: rest /\
    run hostname [OpenTab uuid; CloseTab uuid' uuid] s
      = {| tabs := tabs s; activeTabId := id first |}.
Proof.
  intros Hne Hfresh.
  assert (Hkept : filter (fun tab => negb (String.eqb (id tab) uuid))
                    (tabs s ++ [createNewTab uuid]) = tabs s).
  { rewrite filter_app, (filter_keeps_all uuid (tabs s) Hfresh).
    simpl. rewrite String.eqb_refl. apply app_nil_r. }
  unfold run. cbn [fold_left step state_of].
  unfold handleCloseTab, handleNewTab. cbn [tabs activeTabId].
  rewrite Hkept. destruct (tabs s) as [|first rest]; [congruence|].
  exists first, rest. split; [reflexivity|].
  simpl. rewrite String.eqb_refl. reflexivity.
Qed.

Lemma open_then_close_witness :
  let s := run (fun _ => None) [OpenTab "t1"] (initialState "t0") in
  tabs s <> [] /\ ~ In "t2"%string (ids s) /\
  activeTabId s = "t1"%string /\
  run (fun _ => None) [OpenTab "t2"; CloseTab "t3" "t2"] s
    = {| tabs := tabs s; activeTabId := "t0" |}.
Proof.
  intros s.
  assert (Hne : tabs s <> []) by discriminate.
  assert (Hfresh : ~ In "t2"%string (ids s))
    by (simpl; intuition discriminate).
  split; [exact Hne | split; [exact Hfresh | split; [reflexivity|]]].
  destruct (open_then_close (fun _ => None) "t2" "t3" s Hne Hfresh)
    as [first [rest [Htabs Hrun]]].
  rewrite Hrun. injection Htabs as <- _. reflexivity.
Defined.

Lemma handleCloseTab_active_resolves uuid tabId s :
  In (activeTabId s) (ids s) ->
  In (activeTabId (handleCloseTab uuid tabId s))
     (ids (handleCloseTab uuid tabId s)).
Proof.
  intros Hact. unfold handleCloseTab, ids in *.
  destruct (filter _ (tabs s)) as [|first rest] eqn:E;
    cbn [tabs activeTabId]; [simpl; auto|].
  destruct (String.eqb (activeTabId s) tabId) eqn:Ea; [simpl; auto|].
  apply String.eqb_neq in Ea. rewrite <- E. now apply in_filter_ids.
Qed.

(** X11. closeTab removes every tab that carries the id and only those:
    afterwards no tab has the id (the id of the replacement tab apart,
    which is the generated one), and the tabs with other ids are all
    still there. Closing the same id a second time changes nothing
    more, if [activeTabId] was the id of a tab. *)
Theorem close_tab_removes hostname (uuid tabId : string) (s : BrowserState) :
  uuid <> tabId ->
  let s' := state_of (step hostname (CloseTab uuid tabId) s) in
  ~ In tabId (ids s') /\
  (forall t, In t (tabs s) -> id t <> tabId -> In t (tabs s')) /\
  (In (activeTabId s) (ids s) ->
   forall uuid', step hostname (CloseTab uuid' tabId) s' = Ok s').
Proof.
  intros Hneq s'. subst s'. simpl.
  assert (Hgone : ~ In tabId (ids (handleCloseTab uuid tabId s))).
  { unfold handleCloseTab, ids.
    destruct (filter _ (tabs s)) as [|first rest] eqn:E; cbn [tabs].
    - simpl. intros [H | []]. contradiction.
    - rewrite <- E. intros Hin. apply in_map_iff in Hin.
      destruct Hin as [x [Hx Hin]]. apply filter_In in Hin.
      destruct Hin as [_ Hin]. rewrite Hx, String.eqb_refl in Hin.
      discriminate. }
  split; [exact Hgone|]. split.
  - intros t Hin Hid.
    assert (Hkept : In t (filter (fun tab => negb (String.eqb (id tab) tabId))
                            (tabs s))).
    { apply filter_In. split; [exact Hin|].
      apply negb_true_iff, String.eqb_neq. exact Hid. }
    unfold handleCloseTab.
    destruct (filter _ (tabs s)) as [|first rest]; [destruct Hkept|].
    exact Hkept.
  - intros Hact uuid'. f_equal. apply handleCloseTab_absent; [|exact Hgone].
    now apply handleCloseTab_active_resolves.
Qed.

Lemma close_tab_removes_witness :
  let s := run (fun _ => None) [OpenTab "t1"] (initialState "t0") in
  "t2"%string <> "t1"%string /\
  ids (state_of (step (fun _ => None) (CloseTab "t2" "t1") s))
    = ["t0"%string] /\
  ~ In "t1"%string
      (ids (state_of (step (fun _ => None) (CloseTab "t2" "t1") s))).
Proof.
  intros s.
  assert (Hneq : "t2"%string <> "t1"%string) by discriminate.
  split; [exact Hneq | split; [reflexivity|]].
  exact (proj1 (close_tab_removes (fun _ => None) "t2" "t1" s Hneq)).
Defined.

Lemma find_last_tab (a : string) (ts : list Tab) (new : Tab) :
  find (fun tab => String.eqb (id tab) a) (ts ++ [new]) =
  match find (fun tab => String.eqb (id tab) a) ts with
  | Some t => Some t
  | None => if String.eqb (id new) a then Some new else None
  end.
Proof.
  induction ts as [|x rest IH]; simpl; [reflexivity|].
  destruct (String.eqb (id x) a); [reflexivity | exact IH].
Qed.

(** X12. After openTab the tab the handlers act on is the new blank
    tab, showing the new-tab page with both buttons disabled, when the
    generated id is unused. Should the id be in use already, the
    handlers act on the older tab that carries it. *)
Theorem open_tab_active hostname (uuid : string) (s : BrowserState) :
  let s' := state_of (step hostname (OpenTab uuid) s) in
  (~ In uuid (ids s) ->
   activeTab s' = Some (createNewTab uuid) /\
   tabContent (createNewTab uuid) = NewTabPage /\
   canGoBack (createNewTab uuid) = false /\
   canGoForward (createNewTab uuid) = false /\
   step hostname (OnTab Back) s' = Ok s' /\
   step hostname (OnTab Forward) s' = Ok s') /\
  (forall older, find (fun tab => String.eqb (id tab) uuid) (tabs s)
                   = Some older ->
                 activeTab s' = Some older).
Proof.
  intros s'. subst s'. simpl.
  assert (Hfind : activeTab (handleNewTab uuid s) =
                  match find (fun tab => String.eqb (id tab) uuid) (tabs s) with
                  | Some t => Some t
                  | None => Some (createNewTab uuid)
                  end).
  { unfold activeTab, handleNewTab. cbn [tabs activeTabId].
    rewrite find_last_tab. cbn [id createNewTab].
    rewrite String.eqb_refl. reflexivity. }
  split.
  - intros Hfresh.
    destruct (filter_visible_absent uuid (tabs s) Hfresh) as [_ Hnone].
    rewrite Hnone in Hfind. repeat split; auto.
    + now apply (handleBack_at_start _ _ Hfind).
    + apply (handleForward_at_end _ _ Hfind). unfold Js.length. simpl. lia.
  - intros older Hold. rewrite Hfind, Hold. reflexivity.
Qed.

Lemma open_tab_active_witness :
  let s := run (fun _ => None) [OnTab (OnNavigate "https://a.test")]
             (initialState "t0") in
  ~ In "t1"%string (ids s) /\
  activeTab (state_of (step (fun _ => None) (OpenTab "t1") s))
    = Some (createNewTab "t1") /\
  option_map url
    (activeTab (state_of (step (fun _ => None) (OpenTab "t0") s)))
    = Some (Some "https://a.test"%string).
Proof.
  intros s.
  assert (Hfresh : ~ In "t1"%string (ids s))
    by (simpl; intuition discriminate).
  split; [exact Hfresh|]. split.
  - exact (proj1 (proj1 (open_tab_active (fun _ => None) "t1" s) Hfresh)).
  - rewrite (proj2 (open_tab_active (fun _ => None) "t0" s) _ eq_refl).
    reflexivity.
Defined.

(** ** What the reports and refresh leave alone *)

Lemma updateActiveTab_keeps {B} (proj : Tab -> B) updates s :
  (forall tab, proj (spread tab updates) = proj tab) ->
  map proj (tabs (updateActiveTab updates s)) = map proj (tabs s).
Proof.
  intros Hkeep. unfold updateActiveTab. cbn [tabs]. rewrite map_map.
  apply map_ext. intros tab.
  destruct (String.eqb (id tab) (activeTabId s)); [apply Hkeep | reflexivity].
Qed.

(** X14. Refresh changes no field of any tab but [error]; the error
    report changes none but [error] and [title]; the load report changes
    none but [title], so it leaves a load error in place. None of the
    three touches a url, a history or a cursor. *)
Theorem reports_keep_history hostname (s : BrowserState) :
  map (fun t => (id t, url t, title t, history t, currentHistoryIndex t))
      (tabs (state_of (step hostname (OnTab Refresh) s)))
    = map (fun t => (id t, url t, title t, history t, currentHistoryIndex t))
          (tabs s) /\
  map (fun t => (id t, url t, history t, currentHistoryIndex t))
      (tabs (state_of (step hostname (OnTab ReportDisplayError) s)))
    = map (fun t => (id t, url t, history t, currentHistoryIndex t))
          (tabs s) /\
  (forall docTitle,
     map (fun t => (id t, url t, history t, currentHistoryIndex t, error t))
         (tabs (state_of (step hostname (OnTab (ReportLoadSuccess docTitle)) s)))
       = map (fun t => (id t, url t, history t, currentHistoryIndex t, error t))
             (tabs s)).
Proof.
  repeat split.
  - simpl. unfold handleRefresh.
    destruct (activeTab s); simpl; now apply updateActiveTab_keeps.
  - simpl. now apply updateActiveTab_keeps.
  - intros docTitle. simpl. unfold handleIframeLoad.
    destruct docTitle as [d|]; [destruct (negb (String.eqb d ""))|];
      destruct (activeTab s); simpl;
      try reflexivity; now apply updateActiveTab_keeps.
Qed.

(** ** The past of a history *)

(** X15. No command on the active tab rewrites its past. With the
    cursor within the history, afterwards the history is either the
    same, or (after a navigation) the entries up to the cursor followed
    by one new entry; in both cases the entries up to the old cursor
    are as before. *)
Theorem past_entries_kept hostname (c : TabCommand) (s : BrowserState)
  (t : Tab) :
  activeTab s = Some t ->
  cursor_in_range t ->
  let past := firstn (S (Z.to_nat (currentHistoryIndex t))) (history t) in
  exists t',
    activeTab (state_of (step hostname (OnTab c) s)) = Some t' /\
    (history t' = history t \/ exists dest, history t' = past ++ [dest]) /\
    firstn (S (Z.to_nat (currentHistoryIndex t))) (history t') = past.
Proof.
  intros Ht Hr past. pose proof Hr as Hr'. unfold cursor_in_range in Hr'.
  assert (Hpast : forall dest,
             firstn (S (Z.to_nat (currentHistoryIndex t))) (past ++ [dest])
             = past).
  { intros dest. subst past. rewrite firstn_app, firstn_firstn.
    rewrite Nat.min_id, firstn_length_le by (unfold Js.length in Hr'; lia).
    rewrite Nat.sub_diag. simpl. apply app_nil_r. }
  destruct c as [typed | dest | | | | | docTitle]; simpl;
    unfold handleKeyPress, handleNavigate, handleBack, handleForward,
      handleRefresh, handleIframeError, handleIframeLoad; simpl; rewrite ?Ht;
    try destruct (currentHistoryIndex t >? 0);
    try destruct (currentHistoryIndex t <? Js.length (history t) - 1);
    try (destruct docTitle as [d|]; [destruct (negb (String.eqb d ""))|]);
    simpl; rewrite ?activeTab_updateActiveTab, ?Ht; simpl;
    eexists; (split; [reflexivity|]); simpl;
    rewrite ?(slice0_in_range _ _ Hr); fold past;
    try (split; [left; reflexivity | reflexivity]);
    (split; [right; eexists; reflexivity | apply Hpast]).
Qed.

Lemma past_entries_kept_witness :
  let s := run (fun _ => None)
             [OnTab (OnNavigate "A"); OnTab (OnNavigate "B"); OnTab Back]
             (initialState "t0") in
  exists t,
    activeTab s = Some t /\ cursor_in_range t /\
    option_map (fun t' => firstn 2 (history t'))
      (activeTab (state_of (step (fun _ => None) (OnTab (OnNavigate "C")) s)))
      = Some [""; "A"]%string.
Proof.
  intros s. eexists. split; [reflexivity|].
  assert (Hr : cursor_in_range
                 {| id := "t0"; url := Some "A"%string; title := "New Tab";
                    history := [""; "A"; "B"]%string;
                    currentHistoryIndex := 1; error := None |})
    by (unfold cursor_in_range, Js.length; simpl; lia).
  split; [exact Hr|].
  destruct (past_entries_kept (fun _ => None) (OnNavigate "C") s _ eq_refl Hr)
    as [t' [Hact [_ Hpast]]].
  rewrite Hact. simpl. f_equal. exact Hpast.
Defined.

(** ** Bookmarks, newest first *)

Section SortByKey.

Context {A : Type} (key : A -> Z).

(** The comparator of [loadBookmarks], for any numeric key. *)
Let newestFirst (a b : A) : Z := key b - key a.

Lemma sortInsert_perm a l :
  Permutation (a :: l) (sortInsert newestFirst a l).
Proof.
  induction l as [|b rest IH]; simpl; [reflexivity|].
  destruct (newestFirst a b <=? 0); [reflexivity|].
  rewrite perm_swap. now constructor.
Qed.

Lemma sortWith_perm l : Permutation l (sortWith newestFirst l).
Proof.
  induction l as [|a rest IH]; simpl; [constructor|].
  rewrite <- sortInsert_perm. now constructor.
Qed.

Lemma sortInsert_sorted a l :
  StronglySorted (fun x y => key x >= key y) l ->
  StronglySorted (fun x y => key x >= key y) (sortInsert newestFirst a l).
Proof.
  induction l as [|b rest IH]; intros Hs; simpl.
  - constructor; constructor.
  - inversion Hs as [|? ? Hrest Hall]; subst.
    unfold newestFirst at 1.
    destruct (Z.leb_spec (key b - key a) 0) as [Hle | Hgt].
    + constructor; [exact Hs|]. constructor; [lia|].
      eapply Forall_impl; [|exact Hall]. simpl. intros x Hx. lia.
    + constructor; [now apply IH|].
      eapply Permutation_Forall; [apply sortInsert_perm|].
      constructor; [lia | exact Hall].
Qed.

Lemma sortWith_sorted l :
  StronglySorted (fun x y => key x >= key y) (sortWith newestFirst l).
Proof.
  induction l as [|a rest IH]; simpl; [constructor|].
  now apply sortInsert_sorted.
Qed.

Lemma sortInsert_stable k a l :
  filter (fun x => key x =? k) (sortInsert newestFirst a l) =
  filter (fun x => key x =? k) (a :: l).
Proof.
  induction l as [|b rest IH]; [reflexivity|].
  cbn [sortInsert]. unfold newestFirst at 1.
  destruct (Z.leb_spec (key b - key a) 0) as [Hle | Hgt]; [reflexivity|].
  cbn [filter] in *. rewrite IH.
  destruct (Z.eqb_spec (key a) k), (Z.eqb_spec (key b) k);
    try reflexivity. lia.
Qed.

Lemma sortWith_stable k l :
  filter (fun x => key x =? k) (sortWith newestFirst l) =
  filter (fun x => key x =? k) l.
Proof.
  induction l as [|a rest IH]; [reflexivity|].
  cbn [sortWith]. rewrite sortInsert_stable. cbn [filter]. now rewrite IH.
Qed.

End SortByKey.

(** X16. The bookmarks the new-tab page shows are the stored ones, each
    as often as it is stored, ordered by [createdAt] from the newest to
    the oldest; bookmarks with the same [createdAt] keep the order they
    are stored in. With no storage entry the list is empty. *)
Theorem loadBookmarks_newest_first (stored : option (list Bookmark.t)) :
  let data := match stored with Some data => data | None => [] end in
  Permutation data (loadBookmarks stored) /\
  StronglySorted
    (fun a b => Bookmark.createdAt a >= Bookmark.createdAt b)
    (loadBookmarks stored) /\
  (forall k,
     filter (fun b => Bookmark.createdAt b =? k) (loadBookmarks stored)
       = filter (fun b => Bookmark.createdAt b =? k) data) /\
  loadBookmarks None = [].
Proof.
  intros data. unfold loadBookmarks. fold data. repeat split.
  - apply (sortWith_perm Bookmark.createdAt).
  - apply (sortWith_sorted Bookmark.createdAt).
  - intros k. apply (sortWith_stable Bookmark.createdAt).
Qed.

Example loadBookmarks_example :
  let b i at_ := Bookmark.mk i "https://a.test" "A" None at_ in
  map Bookmark.id
    (loadBookmarks (Some [b "1" 10; b "2" 30; b "3" 10; b "4" 20]%string))
    = ["2"; "4"; "1"; "3"]%string.
Proof. reflexivity. Qed.

(** ** Keys of the panes *)

Lemma append_same_length (a b x y : string) :
  String.length a = String.length b ->
  (a ++ x)%string = (b ++ y)%string -> a = b.
Proof.
  revert b. induction a as [|c a IH]; intros [|d b] Hlen Heq;
    simpl in *; try discriminate; [reflexivity|].
  injection Heq as -> Heq. f_equal. apply IH; [lia | exact Heq].
Qed.

(** X17. The keys [`${tab.id}-${tab.url}`] of the panes are pairwise
    different when the ids are pairwise different and of one length (as
    the generated ids are). For ids of different lengths two tabs can
    share a key. *)
Theorem pane_keys_unique :
  (forall ts : list Tab,
      NoDup (map id ts) ->
      (forall t1 t2, In t1 ts -> In t2 ts ->
                     String.length (id t1) = String.length (id t2)) ->
      NoDup (map tabKey ts)) /\
  (exists t1 t2, id t1 <> id t2 /\ tabKey t1 = tabKey t2).
Proof.
  split.
  - intros ts Hnd Hlen.
    apply NoDup_map_NoDup_ForallPairs.
    + intros t1 t2 H1 H2 Hkey.
      apply (tab_of_id_unique ts); auto.
      unfold tabKey in Hkey.
      eapply append_same_length; [apply Hlen; auto | exact Hkey].
    + eapply NoDup_map_inv. exact Hnd.
  - exists {| id := "a"; url := Some "b-c"%string; title := "";
              history := []; currentHistoryIndex := 0; error := None |},
           {| id := "a-b"; url := Some "c"%string; title := "";
              history := []; currentHistoryIndex := 0; error := None |}.
    split; [discriminate | reflexivity].
Qed.

Lemma pane_keys_unique_witness :
  let s := run (fun _ => None)
             [OpenTab "t1"; OnTab (OnNavigate "https://a.test"); OpenTab "t2"]
             (initialState "t0") in
  NoDup (map id (tabs s)) /\
  NoDup (map tabKey (tabs s)).
Proof.
  intros s.
  assert (Hnd : NoDup (map id (tabs s))).
  { repeat constructor; simpl; intuition discriminate. }
  split; [exact Hnd|].
  apply (proj1 pane_keys_unique (tabs s) Hnd).
  intros t1 t2 H1 H2. simpl in H1, H2.
  destruct H1 as [<- | [<- | [<- | []]]], H2 as [<- | [<- | [<- | []]]];
    reflexivity.
Defined.

(** ** What holds in every state the component can be in *)

Lemma live_updateActiveTab updates s :
  Forall history_live (tabs s) ->
  (forall tab, history_live tab -> history_live (spread tab updates)) ->
  Forall history_live (tabs (updateActiveTab updates s)).
Proof.
  intros Hall Hkeep. unfold updateActiveTab. cbn [tabs].
  apply Forall_forall. intros x Hx. apply in_map_iff in Hx.
  destruct Hx as [t0 [<- Hin]]. rewrite Forall_forall in Hall.
  destruct (String.eqb (id t0) (activeTabId s)); auto.
Qed.

Lemma pushed_nonempty {A} (l : list A) (x : A) : l ++ [x] <> [].
Proof. destruct l; discriminate. Qed.

Lemma live_stepTab hostname c s :
  Forall history_live (tabs s) ->
  Forall history_live (tabs (state_of (stepTab hostname c s))).
Proof.
  intros Hall.
  destruct (activeTab s) as [t|] eqn:Ht.
  - assert (Hlive : history_live t).
    { rewrite Forall_forall in Hall. apply Hall.
      now apply activeTab_Some in Ht. }
    destruct Hlive as [_ Hpos].
    destruct c as [typed | dest | | | | | docTitle]; simpl;
      unfold handleKeyPress, handleNavigate, handleBack, handleForward,
        handleRefresh, handleIframeError, handleIframeLoad; simpl;
      rewrite ?Ht;
      try destruct (Z.gtb_spec (currentHistoryIndex t) 0);
      try destruct (Z.ltb_spec (currentHistoryIndex t)
                      (Js.length (history t) - 1));
      try (destruct docTitle as [d|]; [destruct (negb (String.eqb d ""))|]);
      simpl; try exact Hall;
      (apply live_updateActiveTab; [exact Hall|]);
      intros tab [Hne Hc]; unfold history_live; simpl;
      (split; [try exact Hne; apply pushed_nonempty|]);
      try exact Hc; try lia.
    all: match goal with
         | |- 0 <= Js.length (Js.slice0 ?h ?e ++ [?x]) - 1 =>
             pose proof (length_pushed h e x); lia
         end.
  - destruct (stepTab_shape hostname c s) as [E | [updates E]]; rewrite E;
      [exact Hall | now rewrite updateActiveTab_dangling].
Qed.

(** X18. In every state the component can reach, whatever ids are
    generated (repeated ones too) and whatever ids are selected or
    closed (unknown ones too): there is at least one tab, no tab has an
    empty history, and no cursor is negative. *)
Theorem reachable_never_empty hostname (s : BrowserState) :
  Reachable hostname s ->
  tabs s <> [] /\
  Forall (fun t => history t <> [] /\ 0 <= currentHistoryIndex t) (tabs s).
Proof.
  intros Hreach. change (tabs s <> [] /\ Forall history_live (tabs s)).
  induction Hreach as [uuid | c s Hreach [Hne Hall]].
  - split; [discriminate|].
    constructor; [|constructor]. split; [discriminate | simpl; lia].
  - destruct c as [c | uuid | uuid tabId | tabId]; simpl.
    + split; [|now apply live_stepTab].
      destruct (stepTab_shape hostname c s) as [E | [updates E]]; rewrite E;
        [exact Hne|].
      simpl. destruct (tabs s); [congruence | discriminate].
    + split; [destruct (tabs s); discriminate|].
      apply Forall_app. split; [exact Hall|].
      constructor; [|constructor]. split; [discriminate | simpl; lia].
    + split; [apply handleCloseTab_nonempty|].
      unfold handleCloseTab.
      destruct (filter _ (tabs s)) as [|first rest] eqn:E; simpl.
      * constructor; [|constructor]. split; [discriminate | simpl; lia].
      * rewrite <- E. apply Forall_forall. intros x Hx.
        apply filter_In in Hx. rewrite Forall_forall in Hall.
        apply Hall. tauto.
    + split; [exact Hne | exact Hall].
Qed.

Lemma reachable_never_empty_witness :
  let s := run (fun _ => None)
             [OpenTab "t0"; SelectTab "ghost"; CloseTab "t0" "t0"]
             (initialState "t0") in
  Reachable (fun _ => None) s /\ tabs s <> [].
Proof.
  intros s.
  assert (Hreach : Reachable (fun _ => None) s).
  { apply (reach_step _ (CloseTab "t0" "t0")).
    apply (reach_step _ (SelectTab "ghost")).
    apply (reach_step _ (OpenTab "t0")).
    apply reach_init. }
  split; [exact Hreach|].
  exact (proj1 (reachable_never_empty (fun _ => None) s Hreach)).
Defined.
